(** * Session and token lifecycle of [server/replitAuth.ts]

    A shallow embedding of the authentication orchestrator: the demo
    login and logout endpoints, the current-user query, the unified
    authentication check with its refresh-on-demand, and the per-domain
    strategy registration done by [setupAuth].

    JavaScript objects live in a heap of property maps, so that the
    aliasing between [req.user] and the principal kept in the session is
    explicit.  The external collaborators (identity-provider client,
    credential validator, session store, clock) are fields of an
    environment record; each may answer differently as the history of
    calls grows.  Every call to a collaborator is recorded in a trace. *)

From Stdlib Require Import ZArith Ascii String List.
From stdpp Require Import base option gmap strings list fin_maps.

Local Open Scope string_scope.
Local Open Scope Z_scope.
Local Open Scope list_scope.

(** ** JavaScript values *)

Module Js.

(** Heap addresses of objects. *)
Definition loc := positive.

(** Values held by the session, the request and the token responses.
    Numbers are the integers (timestamps in seconds or milliseconds);
    NaN and fractional numbers are outside the model. *)
Inductive val :=
| VUndef
| VNull
| VBool (b : bool)
| VNum (n : Z)
| VStr (s : string)
| VRef (l : loc).

#[global] Instance val_eq_dec : EqDecision val.
Proof. solve_decision. Defined.

(** A plain data object is the map of its own properties. *)
Abbreviation obj := (gmap string val).
Abbreviation Heap := (gmap loc (gmap string val)).

(** ToBoolean, as used by [if (x)], [!x], [a || b] and [a && b]. *)
Definition truthy (v : val) : bool :=
  match v with
  | VUndef | VNull => false
  | VBool b => b
  | VNum n => negb (Z.eqb n 0)
  | VStr s => negb (String.eqb s EmptyString)
  | VRef _ => true
  end.

(** [a && b] yields [a] when it is falsy and [b] otherwise. *)
Definition js_and (a b : val) : val := if truthy a then b else a.

(** [o[k]] on a property map: an absent property reads [undefined]. *)
Definition field (o : gmap string val) (k : string) : val :=
  default VUndef (o !! k).

(** ToNumber on the primitives it is fixed for; [None] is NaN.  Strings
    and objects are converted by [ext], the part of the language's
    coercion that this development does not spell out. *)
Definition to_number (ext : val -> option Z) (v : val) : option Z :=
  match v with
  | VUndef => None
  | VNull => Some 0
  | VBool b => Some (if b then 1 else 0)
  | VNum n => Some n
  | VStr _ | VRef _ => ext v
  end.

(** [n <= v] for a number [n]: false as soon as [v] converts to NaN. *)
Definition num_le (ext : val -> option Z) (n : Z) (v : val) : bool :=
  match to_number ext v with
  | Some m => Z.leb n m
  | None => false
  end.

(** *** Strings: [split] and [trim] *)

(** [s.split(sep)] for a one-character separator. *)
Fixpoint split (sep : ascii) (s : string) : list string :=
  match s with
  | EmptyString => [EmptyString]
  | String c r =>
      if Ascii.eqb c sep then EmptyString :: split sep r
      else match split sep r with
           | p :: ps => String c p :: ps
           | [] => [String c EmptyString]
           end
  end.

Definition utf8 (bytes : list nat) : list ascii := map ascii_of_nat bytes.

(** The code points [trim] removes (WhiteSpace and LineTerminator of the
    language), in their UTF-8 encoding. *)
Definition white_space : list (list ascii) :=
  map utf8
    [ [9%nat]; [10%nat]; [11%nat]; [12%nat]; [13%nat]; [32%nat];
      [194; 160]%nat;
      [225; 154; 128]%nat;
      [226; 128; 128]%nat; [226; 128; 129]%nat; [226; 128; 130]%nat;
      [226; 128; 131]%nat; [226; 128; 132]%nat; [226; 128; 133]%nat;
      [226; 128; 134]%nat; [226; 128; 135]%nat; [226; 128; 136]%nat;
      [226; 128; 137]%nat; [226; 128; 138]%nat;
      [226; 128; 168]%nat; [226; 128; 169]%nat; [226; 128; 175]%nat;
      [226; 129; 159]%nat;
      [227; 128; 128]%nat;
      [239; 187; 191]%nat ].

Fixpoint strip (p s : list ascii) : option (list ascii) :=
  match p with
  | [] => Some s
  | a :: p' =>
      match s with
      | b :: s' => if Ascii.eqb a b then strip p' s' else None
      | [] => None
      end
  end.

Fixpoint strip_any (ps : list (list ascii)) (s : list ascii) : option (list ascii) :=
  match ps with
  | [] => None
  | p :: ps' =>
      match strip p s with
      | Some r => Some r
      | None => strip_any ps' s
      end
  end.

Fixpoint drop_leading (fuel : nat) (ps : list (list ascii)) (s : list ascii) : list ascii :=
  match fuel with
  | O => s
  | S fuel' =>
      match strip_any ps s with
      | Some r => drop_leading fuel' ps r
      | None => s
      end
  end.

Definition trimStart (s : list ascii) : list ascii :=
  drop_leading (length s) white_space s.

Definition trimEnd (s : list ascii) : list ascii :=
  rev (drop_leading (length s) (map (@rev ascii) white_space) (rev s)).

(** [s.trim()]. *)
Definition trim (s : string) : string :=
  string_of_list_ascii (trimEnd (trimStart (list_ascii_of_string s))).

(** *** Hostnames whose URL is known

    A host made of labels of lower-case ASCII letters, separated by
    single dots: a URL with such a host parses, and is written back as
    it was read. *)

Definition lower_letter (c : ascii) : bool :=
  (97 <=? nat_of_ascii c)%nat && (nat_of_ascii c <=? 122)%nat.

Fixpoint all_chars (P : ascii -> bool) (s : string) : bool :=
  match s with
  | EmptyString => true
  | String c r => P c && all_chars P r
  end.

Definition plain_label (l : string) : bool :=
  negb (String.eqb l EmptyString) && all_chars lower_letter l.

Definition plain_host (h : string) : bool :=
  forallb plain_label (split "." h).

End Js.
Export Js.

(** ** The world the handlers run in *)

Module Model.

(** Exceptions: the language's own TypeError, and failures raised by a
    collaborator or by the module itself. *)
Inductive Error :=
| TypeError (what : string)
| Failure (msg : string).

(** Provider configuration returned by discovery. *)
Record Config := {
  cfg_issuer : string;
  cfg_client_id : string;
  cfg_metadata : string
}.

(** A token endpoint response: [claims()] yields the ID token claims or
    [undefined]. *)
Record TokenResponse := {
  tok_claims : option (gmap string val);
  tok_access_token : val;
  tok_refresh_token : val
}.

(** What a collaborator hands back: a value that already exists, or an
    object it has just built. *)
Inductive Fresh :=
| Existing (v : val)
| NewObject (o : gmap string val).

(** Calls to the collaborators, newest first in the trace. *)
Inductive Event :=
| EvDiscovery (issuer client_id : string) (r : Error + Config)
| EvRefreshTokenGrant (cfg : Config) (refreshToken : val) (r : Error + TokenResponse)
| EvValidateCredentials (email password : val) (r : Error + Fresh)
| EvStoreDestroy (sid : string) (r : option Error)
| EvConsoleError (label : string) (e : Error)
| EvConsoleLog (label : string) (e : option Error).

(** A registered passport strategy; the [verify] callback is the same
    closure for all of them. *)
Record Strategy := {
  name : string;
  config : Config;
  scope : string;
  callbackURL : string
}.

Record World := {
  heap : gmap loc (gmap string val);
  store : gmap string val;
  strategies : gmap string Strategy;
  trace : list Event
}.

(** The process environment and the collaborators.

    - [REPL_ID], [REPLIT_DOMAINS], [ISSUER_URL]: environment variables,
      [None] when unset;
    - [Date_now]: what [Date.now()] returns (milliseconds) while the
      request is handled;
    - [to_number_ext]: ToNumber on strings and objects, see [to_number];
    - [discovery], [refreshTokenGrant]: the identity-provider client;
      the first argument is the history of calls so far;
    - [validateCredentials]: the credential validator of [./storage];
    - [sessionStore_destroy]: the error, if any, that the session store
      passes to the callback of [destroy];
    - [generateSessionId]: the identifier given to a new session;
    - [URL_ext]: what [new URL(s)] gives, the serialised URL or the
      TypeError it throws, on the strings [new_URL] does not decide. *)
Record Env := {
  REPL_ID : option string;
  REPLIT_DOMAINS : option string;
  ISSUER_URL : option string;
  Date_now : Z;
  to_number_ext : val -> option Z;
  discovery : list Event -> string -> string -> Error + Config;
  refreshTokenGrant : list Event -> Config -> val -> Error + TokenResponse;
  validateCredentials : list Event -> val -> val -> Error + Fresh;
  sessionStore_destroy : list Event -> string -> option Error;
  generateSessionId : list Event -> string;
  URL_ext : string -> Error + string
}.

(** What passport and the session middleware have put on the request;
    [req_isAuthenticated] is the answer of [req.isAuthenticated()]. *)
Record Request := {
  req_session : val;
  req_sessionID : string;
  req_user : val;
  req_isAuthenticated : bool;
  req_body : val;
  req_hostname : string
}.

Definition set_req_user (r : Request) (u : val) : Request :=
  {| req_session := req_session r;
     req_sessionID := req_sessionID r;
     req_user := u;
     req_isAuthenticated := req_isAuthenticated r;
     req_body := req_body r;
     req_hostname := req_hostname r |}.

(** Response bodies, by the shape of the object literal given to
    [res.json]. *)
Inductive Body :=
| BJson (v : val)
| BMessage (message : string)
| BUserMessage (user : val) (message : string).

Inductive Outcome :=
| Next (r : Request)
| Reply (status : Z) (b : Body).

(** *** State and exceptions *)

Inductive Res (A : Type) :=
| Ok (a : A)
| Throw (e : Error).
Arguments Ok {A} a.
Arguments Throw {A} e.

Definition M (A : Type) : Type := World -> Res A * World.

Definition ret {A} (a : A) : M A := fun w => (Ok a, w).

Definition bind {A B} (m : M A) (k : A -> M B) : M B :=
  fun w =>
    match m w with
    | (Ok a, w') => k a w'
    | (Throw e, w') => (Throw e, w')
    end.

Definition throw {A} (e : Error) : M A := fun w => (Throw e, w).

(** [try { m } catch (error) { h error }]: effects of [m] before the
    throw stay. *)
Definition try_catch {A} (m : M A) (h : Error -> M A) : M A :=
  fun w =>
    match m w with
    | (Ok a, w') => (Ok a, w')
    | (Throw e, w') => h e w'
    end.

Definition set_heap (h : gmap loc (gmap string val)) (w : World) : World :=
  {| heap := h; store := store w; strategies := strategies w; trace := trace w |}.

Definition set_store (s : gmap string val) (w : World) : World :=
  {| heap := heap w; store := s; strategies := strategies w; trace := trace w |}.

Definition set_strategies (s : gmap string Strategy) (w : World) : World :=
  {| heap := heap w; store := store w; strategies := s; trace := trace w |}.

Definition set_trace (t : list Event) (w : World) : World :=
  {| heap := heap w; store := store w; strategies := strategies w; trace := t |}.

Definition emit (ev : Event) : M unit :=
  fun w => (Ok tt, set_trace (ev :: trace w) w).

Definition history : M (list Event) := fun w => (Ok (trace w), w).

#[global] Instance M_ret : MRet M := @ret.
#[global] Instance M_bind : MBind M := fun A B k m => bind m k.

(** *** Objects in the heap *)

(** [new Object] with the given properties, at an unused address. *)
Definition alloc (o : gmap string val) : M val :=
  fun w =>
    let l := fresh (dom (heap w)) in
    (Ok (VRef l), set_heap (<[l := o]> (heap w)) w).

(** [v.k], also the reading done by a destructuring pattern.
    [undefined] and [null] have no properties; the names this module
    reads are not defined on the wrappers of the other primitives. *)
Definition get_prop (v : val) (k : string) : M val :=
  fun w =>
    match v with
    | VUndef | VNull => (Throw (TypeError k), w)
    | VRef l =>
        match heap w !! l with
        | Some o => (Ok (field o k), w)
        | None => (Ok VUndef, w)
        end
    | VBool _ | VNum _ | VStr _ => (Ok VUndef, w)
    end.

(** [v?.k]. *)
Definition opt_prop (v : val) (k : string) : M val :=
  match v with
  | VUndef | VNull => ret VUndef
  | _ => get_prop v k
  end.

(** [v.k = x] in strict-mode code: only an object takes the property. *)
Definition set_prop (v : val) (k : string) (x : val) : M unit :=
  fun w =>
    match v with
    | VRef l =>
        match heap w !! l with
        | Some o => (Ok tt, set_heap (<[l := <[k := x]> o]> (heap w)) w)
        | None => (Throw (TypeError k), w)
        end
    | _ => (Throw (TypeError k), w)
    end.

(** The value a collaborator returned, once it is in the heap. *)
Definition materialise (f : Fresh) : M val :=
  match f with
  | Existing v => ret v
  | NewObject o => alloc o
  end.

(** Settling an awaited collaborator call. *)
Definition settle {A} (r : Error + A) : M A :=
  match r with
  | inl e => throw e
  | inr a => ret a
  end.

(** [for (const x of xs) body]. *)
Fixpoint for_of {A} (xs : list A) (body : A -> M unit) : M unit :=
  match xs with
  | [] => ret tt
  | x :: xs' => body x;; for_of xs' body
  end.

End Model.
Export Model.

(** ** The module [server/replitAuth.ts] *)

Module Auth.

Section WithEnv.

Variable env : Env.

(** [process.env.REPL_ID && process.env.REPL_ID.trim() !== ''], the
    value computed once when the module is loaded. *)
Definition isReplitEnvironment : val :=
  match REPL_ID env with
  | None => VUndef
  | Some s => js_and (VStr s) (VBool (negb (String.eqb (trim s) EmptyString)))
  end.

(** The allowed hostnames once the module has been loaded: an unset or
    empty variable is replaced by the default list. *)
Definition replit_domains : string :=
  match REPLIT_DOMAINS env with
  | Some s => if truthy (VStr s) then s else "replit.app,replit.dev,replit.com"
  | None => "replit.app,replit.dev,replit.com"
  end.

(** The memoised discovery: whether the answer is cached or fetched
    is the collaborator's business.  Past the guard [REPL_ID] is set. *)
Definition getOidcConfig : M Config :=
  if negb (truthy isReplitEnvironment) then
    throw (Failure "Not in Replit environment")
  else
    h ← history;
    let issuer := default "https://replit.com/oidc" (ISSUER_URL env) in
    let client_id := default EmptyString (REPL_ID env) in
    let r := discovery env h issuer client_id in
    emit (EvDiscovery issuer client_id r);;
    settle r.

Definition client_refreshTokenGrant (cfg : Config) (refreshToken : val) : M TokenResponse :=
  h ← history;
  let r := refreshTokenGrant env h cfg refreshToken in
  emit (EvRefreshTokenGrant cfg refreshToken r);;
  settle r.

Definition storage_validateCredentials (email password : val) : M val :=
  h ← history;
  let r := validateCredentials env h email password in
  emit (EvValidateCredentials email password r);;
  f ← settle r;
  materialise f.

(** [tokens.claims()]. *)
Definition tokens_claims (tokens : TokenResponse) : M val :=
  match tok_claims tokens with
  | Some c => alloc c
  | None => ret VUndef
  end.

Definition updateUserSession (user : val) (tokens : TokenResponse) : M unit :=
  c ← tokens_claims tokens;
  set_prop user "claims" c;;
  set_prop user "access_token" (tok_access_token tokens);;
  set_prop user "refresh_token" (tok_refresh_token tokens);;
  claims ← get_prop user "claims";
  exp ← opt_prop claims "exp";
  set_prop user "expires_at" exp.

Definition unauthorized : Outcome := Reply 401 (BMessage "Unauthorized").

(** The authentication middleware. *)
Definition isAuthenticated (req : Request) : M Outcome :=
  sessionUser ← opt_prop (req_session req) "user";
  if truthy sessionUser then
    ret (Next (set_req_user req sessionUser))
  else if negb (truthy isReplitEnvironment) then
    ret unauthorized
  else
    let user := req_user req in
    rejected ← (if negb (req_isAuthenticated req) then ret true
                else e ← get_prop user "expires_at"; ret (negb (truthy e)));
    if rejected : bool then
      ret unauthorized
    else
      let now := Date_now env / 1000 in
      expires_at ← get_prop user "expires_at";
      if num_le (to_number_ext env) now expires_at then
        ret (Next req)
      else
        refreshToken ← get_prop user "refresh_token";
        if negb (truthy refreshToken) then
          ret unauthorized
        else
          try_catch
            (config ← getOidcConfig;
             tokenResponse ← client_refreshTokenGrant config refreshToken;
             updateUserSession user tokenResponse;;
             ret (Next req))
            (fun _ => ret unauthorized).

(** [GET /api/auth/user]. *)
Definition auth_user (req : Request) : M Outcome :=
  sessionUser ← opt_prop (req_session req) "user";
  if truthy sessionUser then
    ret (Reply 200 (BJson sessionUser))
  else
    let user := req_user req in
    if req_isAuthenticated req && truthy user then
      ret (Reply 200 (BJson user))
    else
      ret unauthorized.

(** [POST /api/login]: the body of the [try] block, then the handler of
    the [catch] clause. *)
Definition login_attempt (req : Request) : M Outcome :=
  email ← get_prop (req_body req) "email";
  password ← get_prop (req_body req) "password";
  if negb (truthy email) || negb (truthy password) then
    ret (Reply 400 (BMessage "Email и пароль обязательны"))
  else
    user ← storage_validateCredentials email password;
    if negb (truthy user) then
      ret (Reply 401 (BMessage "Неверный email или пароль"))
    else
      set_prop (req_session req) "user" user;;
      ret (Reply 200 (BUserMessage user "Успешный вход в систему")).

Definition login_failed (error : Error) : M Outcome :=
  emit (EvConsoleError "Login error:" error);;
  ret (Reply 500 (BMessage "Ошибка входа в систему")).

Definition login_post (req : Request) : M Outcome :=
  try_catch (login_attempt req) login_failed.

(** [req.session.destroy(cb)] of the session middleware: the store is
    asked to drop the entry and [cb] receives its verdict.  A store
    that reports an error has kept the entry. *)
Definition session_destroy (req : Request) : M (option Error) :=
  match req_session req with
  | VRef _ =>
      h ← history;
      let r := sessionStore_destroy env h (req_sessionID req) in
      emit (EvStoreDestroy (req_sessionID req) r);;
      match r with
      | None => fun w => (Ok r, set_store (delete (req_sessionID req) (store w)) w)
      | Some _ => ret r
      end
  | _ => throw (TypeError "destroy")
  end.

(** [POST /api/logout]. *)
Definition logout_post (req : Request) : M Outcome :=
  err ← session_destroy req;
  match err with
  | Some _ => ret (Reply 500 (BMessage "Ошибка выхода из системы"))
  | None => ret (Reply 200 (BMessage "Успешный выход из системы"))
  end.

(** [passport.use(strategy)]: the registry is keyed by strategy name. *)
Definition passport_use (s : Strategy) : M unit :=
  fun w => (Ok tt, set_strategies (<[name s := s]> (strategies w)) w).

(** [`replitauth:${domain}`] and [`https://${domain}/api/callback`]. *)
Definition strategy_name (domain : string) : string :=
  "replitauth:" +:+ domain.

Definition callback_url (domain : string) : string :=
  "https://" +:+ domain +:+ "/api/callback".

(** [s] is [https://{h}/api/callback] for a plain host [h]. *)
Definition plain_callback (s : string) : bool :=
  let h := substring 8 (String.length s - 21) s in
  String.eqb s (callback_url h) && plain_host h.

(** [new URL(s)], as its serialisation: fixed on the callback URLs of
    plain hosts, left to [URL_ext] on every other string. *)
Definition new_URL (s : string) : Error + string :=
  if plain_callback s then inr s else URL_ext env s.

(** [new Strategy({ name, config, scope, callbackURL }, verify)]: the
    constructor parses the callback URL, throws when it does not parse
    and keeps the parsed URL. *)
Definition new_Strategy (cfg : Config) (domain : string) : Error + Strategy :=
  match new_URL (callback_url domain) with
  | inl e => inl e
  | inr url =>
      inr {| name := strategy_name domain;
             config := cfg;
             scope := "openid email profile offline_access";
             callbackURL := url |}
  end.

(** The part of [setupAuth] that changes state: the registration of the
    strategies.  Mounting the middleware and the routes is wiring. *)
Definition setupAuth : M unit :=
  if truthy isReplitEnvironment then
    try_catch
      (config ← getOidcConfig;
       for_of (split "," replit_domains)
         (fun domain =>
            strategy ← settle (new_Strategy config domain);
            passport_use strategy))
      (fun error =>
         emit (EvConsoleLog "OpenID setup failed, using demo login only:" (Some error)))
  else
    emit (EvConsoleLog "Not in Replit environment, using demo login only" None).

(** *** The middleware mounted by [setupAuth] before the routes

    [getSession()] loads the session named by the cookie from the
    store, or starts an empty one; [passport.session()] with the
    identity (de)serialisers puts the stored principal
    [req.session.passport.user] on the request; without a session it
    fails.  A stored principal equal to 0 is handed to the deserialiser,
    which then fails; any other falsy one means that nobody is logged
    in. *)
Definition session_middleware (sid : string) : M (val * string) :=
  fun w =>
    match store w !! sid with
    | Some s => (Ok (s, sid), w)
    | None => (s ← alloc ∅; ret (s, generateSessionId env (trace w))) w
    end.

Definition passport_session (session : val) : M (val * bool) :=
  if negb (truthy session) then
    throw (Failure "Login sessions require session support. Did you forget to use `express-session` middleware?")
  else
    p ← get_prop session "passport";
    su ← (if truthy p then get_prop p "user" else ret VUndef);
    if truthy su then ret (su, true)
    else if decide (su = VNum 0) then
      throw (Failure "Failed to deserialize user out of session")
    else ret (VUndef, false).

Definition incoming (sid : string) (body : val) (hostname : string) : M Request :=
  '(session, sessionID) ← session_middleware sid;
  '(user, authenticated) ← passport_session session;
  ret {| req_session := session;
         req_sessionID := sessionID;
         req_user := user;
         req_isAuthenticated := authenticated;
         req_body := body;
         req_hostname := hostname |}.

(** A [GET /api/auth/user] request arriving with the session cookie
    [sid]: the middleware chain, then the route. *)
Definition serve_auth_user (sid : string) (body : val) (hostname : string) : M Outcome :=
  req ← incoming sid body hostname;
  auth_user req.

End WithEnv.

End Auth.
Export Auth.


(** ** Readings of the state used in the statements *)

Module Reading.

(** The value of [req.session?.user]: the demo session payload. *)
Definition demo_payload (w : World) (req : Request) : val :=
  match req_session req with
  | VRef l =>
      match heap w !! l with
      | Some o => field o "user"
      | None => VUndef
      end
  | _ => VUndef
  end.

(** The request's principal is the object [o] stored at [l]. *)
Definition principal (w : World) (req : Request) (l : loc) (o : gmap string val) : Prop :=
  req_user req = VRef l /\ heap w !! l = Some o.

(** Seconds since the epoch, as the authentication check computes them. *)
Definition now (env : Env) : Z := Date_now env / 1000.

(** The [exp] claim of a token response: [tokens.claims()?.exp]. *)
Definition claims_exp (tokens : TokenResponse) : val :=
  match tok_claims tokens with
  | Some c => field c "exp"
  | None => VUndef
  end.

(** The principal [o] after its four token fields have been assigned from
    [tokens], with [c] the value of [tokens.claims()]. *)
Definition overwritten (o : gmap string val) (c : val) (tokens : TokenResponse)
  : gmap string val :=
  <["expires_at" := claims_exp tokens]>
    (<["refresh_token" := tok_refresh_token tokens]>
       (<["access_token" := tok_access_token tokens]>
          (<["claims" := c]> o))).

(** The value [tokens.claims()] returns in heap [h], and [h] once that
    object exists. *)
Definition claims_value (h : gmap loc (gmap string val)) (tokens : TokenResponse) : val :=
  match tok_claims tokens with
  | Some _ => VRef (fresh (dom h))
  | None => VUndef
  end.

Definition with_claims (h : gmap loc (gmap string val)) (tokens : TokenResponse)
  : gmap loc (gmap string val) :=
  match tok_claims tokens with
  | Some c => <[fresh (dom h) := c]> h
  | None => h
  end.

(** The heap after the principal [o] at [l] has been refreshed. *)
Definition refreshed (h : gmap loc (gmap string val)) (l : loc)
    (o : gmap string val) (tokens : TokenResponse) : gmap loc (gmap string val) :=
  <[l := overwritten o (claims_value h tokens) tokens]> (with_claims h tokens).

Definition token_fields : list string :=
  ["claims"; "access_token"; "refresh_token"; "expires_at"].

Definition is_refresh (ev : Event) : bool :=
  match ev with
  | EvRefreshTokenGrant _ _ _ => true
  | _ => false
  end.

(** Number of refresh attempts recorded in a trace. *)
Definition refresh_calls (t : list Event) : nat :=
  length (List.filter is_refresh t).

(** What the two awaited calls of the [try] block of the check yield
    when they are made at history [t] with refresh token [tok]. *)
Definition refresh_attempt (env : Env) (t : list Event) (tok : val)
  : Error + TokenResponse :=
  if negb (truthy (isReplitEnvironment env)) then
    inl (Failure "Not in Replit environment")
  else
    let issuer := default "https://replit.com/oidc" (ISSUER_URL env) in
    let client_id := default EmptyString (REPL_ID env) in
    match discovery env t issuer client_id with
    | inl e => inl e
    | inr cfg =>
        refreshTokenGrant env
          (EvDiscovery issuer client_id (inr cfg) :: t) cfg tok
    end.

(** The registry after the registration loop has gone through [ds]:
    the strategy of each domain is registered in order, up to the first
    one that cannot be constructed. *)
Fixpoint registered (env : Env) (cfg : Config) (ds : list string)
    (reg : gmap string Strategy) : gmap string Strategy :=
  match ds with
  | [] => reg
  | d :: ds' =>
      match new_Strategy env cfg d with
      | inr s => registered env cfg ds' (<[name s := s]> reg)
      | inl _ => reg
      end
  end.

(** The error that ends the loop, if any. *)
Fixpoint loop_failure (env : Env) (cfg : Config) (ds : list string) : option Error :=
  match ds with
  | [] => None
  | d :: ds' =>
      match new_Strategy env cfg d with
      | inr _ => loop_failure env cfg ds'
      | inl e => Some e
      end
  end.

(** The domains the loop reaches with success: those before the first
    whose callback URL does not parse. *)
Fixpoint registrable (env : Env) (ds : list string) : list string :=
  match ds with
  | [] => []
  | d :: ds' =>
      match new_URL env (callback_url d) with
      | inr _ => d :: registrable env ds'
      | inl _ => []
      end
  end.

End Reading.
Export Reading.

(** ** Concrete deployments and requests *)

Module Scenario.

Definition tokens0 : TokenResponse :=
  {| tok_claims := Some {[ "sub" := VStr "u1"; "exp" := VNum 1700003600 ]};
     tok_access_token := VStr "at2";
     tok_refresh_token := VStr "rt2" |}.

(** A token response that carries no refresh token. *)
Definition tokens_without_refresh : TokenResponse :=
  {| tok_claims := Some {[ "sub" := VStr "u1"; "exp" := VNum 1700003600 ]};
     tok_access_token := VStr "at2";
     tok_refresh_token := VUndef |}.

Definition demo_user : gmap string val :=
  {[ "id" := VNum 7; "email" := VStr "demo@example.com" ]}.

(** A deployment: the marker, the clock (ms), the answer of the token
    endpoint and the verdict of the store on [destroy]. *)
Definition deployment (repl_id : option string) (clock : Z)
    (grant : Error + TokenResponse) (destroyed : option Error) : Env :=
  {| REPL_ID := repl_id;
     REPLIT_DOMAINS := Some "a.example,b.example";
     ISSUER_URL := None;
     Date_now := clock;
     to_number_ext := fun _ => None;
     discovery := fun _ issuer client_id =>
       inr {| cfg_issuer := issuer; cfg_client_id := client_id;
              cfg_metadata := "metadata" |};
     refreshTokenGrant := fun _ _ _ => grant;
     validateCredentials := fun _ email password =>
       if decide (email = VStr "down@example.com")
       then inl (Failure "database unreachable")
       else if decide (email = VStr "demo@example.com" /\ password = VStr "secret")
       then inr (NewObject demo_user)
       else inr (Existing VUndef);
     sessionStore_destroy := fun _ _ => destroyed;
     generateSessionId := fun _ => "sid-new";
     URL_ext := fun s =>
       if existsb (Ascii.eqb " ") (list_ascii_of_string s)
       then inl (TypeError "Invalid URL")
       else inr s |}.

Definition hosted : Env :=
  deployment (Some "repl-1") 1700000000123 (inr tokens0) None.

Definition demo_only : Env :=
  deployment None 1700000000123 (inr tokens0) None.

(** A hosted deployment whose clock still reads the epoch. *)
Definition at_epoch : Env :=
  deployment (Some "repl-1") 999 (inr tokens0) None.

(** A hosted deployment whose token endpoint refuses the refresh. *)
Definition refusing : Env :=
  deployment (Some "repl-1") 1700000000123 (inl (Failure "invalid_grant")) None.

(** The hosted deployment two hours later. *)
Definition later : Env :=
  deployment (Some "repl-1") 1700007200123 (inr tokens0) None.

(** A hosted deployment whose provider cannot be discovered. *)
Definition undiscoverable : Env :=
  {| REPL_ID := REPL_ID hosted;
     REPLIT_DOMAINS := REPLIT_DOMAINS hosted;
     ISSUER_URL := ISSUER_URL hosted;
     Date_now := Date_now hosted;
     to_number_ext := to_number_ext hosted;
     discovery := fun _ _ _ => inl (Failure "fetch failed");
     refreshTokenGrant := refreshTokenGrant hosted;
     validateCredentials := validateCredentials hosted;
     sessionStore_destroy := sessionStore_destroy hosted;
     generateSessionId := generateSessionId hosted;
     URL_ext := URL_ext hosted |}.

(** A hosted deployment whose store fails to destroy sessions. *)
Definition failing_store : Env :=
  deployment (Some "repl-1") 1700000000123 (inr tokens0)
    (Some (Failure "connection terminated")).

(** A federated principal with the given expiry and refresh token. *)
Definition principal_obj (expires_at refresh_token : val) : gmap string val :=
  {[ "claims" := VRef 4%positive;
     "access_token" := VStr "at1";
     "refresh_token" := refresh_token;
     "expires_at" := expires_at ]}.

(** Heap: the principal at 1, the session at 2 (with passport data at 3,
    and the demo payload [demo] under the key [user]), the old claims
    at 4, a demo user at 5, a request body at 6. *)
Definition world_of (p : gmap string val) (demo : val) : World :=
  {| heap :=
       {[ 1%positive := p;
          2%positive := {[ "passport" := VRef 3%positive; "user" := demo ]};
          3%positive := {[ "user" := VRef 1%positive ]};
          4%positive := {[ "sub" := VStr "u1"; "exp" := VNum 1699990000 ]};
          5%positive := demo_user;
          6%positive := {[ "email" := VStr "demo@example.com";
                           "password" := VStr "secret" ]} ]};
     store := {[ "s1" := VRef 2%positive ]};
     strategies := ∅;
     trace := [] |}.

Definition request : Request :=
  {| req_session := VRef 2%positive;
     req_sessionID := "s1";
     req_user := VRef 1%positive;
     req_isAuthenticated := true;
     req_body := VRef 6%positive;
     req_hostname := "a.example" |}.

(** The same world with another request body. *)
Definition with_body (email password : val) (w : World) : World :=
  set_heap (<[6%positive := {[ "email" := email; "password" := password ]}]> (heap w)) w.

Definition startup : World :=
  {| heap := ∅; store := ∅; strategies := ∅; trace := [] |}.

End Scenario.

(** ** The rest of the module: session options, the verify callback,
    the federated login routes *)

Module Wiring.

(** *** [getSession] *)

Record CookieOptions := {
  httpOnly : bool;
  secure : bool;
  maxAge : Z
}.

Record StoreOptions := {
  conString : option string;
  createTableIfMissing : bool;
  ttl : Z;
  tableName : string
}.

Record SessionOptions := {
  secret : string;
  sessionStore : StoreOptions;
  resave : bool;
  saveUninitialized : bool;
  cookie : CookieOptions
}.

(** [process.env.X || fallback]. *)
Definition env_or (x : option string) (fallback : string) : string :=
  match x with
  | Some s => if truthy (VStr s) then s else fallback
  | None => fallback
  end.

(** The options [getSession] hands to the session middleware. *)
Definition getSession (SESSION_SECRET DATABASE_URL : option string) : SessionOptions :=
  let sessionTtl := 7 * 24 * 60 * 60 * 1000 in
  {| secret := env_or SESSION_SECRET "package-management-secret-key";
     sessionStore :=
       {| conString := DATABASE_URL;
          createTableIfMissing := false;
          ttl := sessionTtl;
          tableName := "sessions" |};
     resave := false;
     saveUninitialized := false;
     cookie := {| httpOnly := true; secure := false; maxAge := sessionTtl |} |}.

(** *** [upsertUser] and the [verify] callback of the strategies *)

(** The record handed to [storage.upsertUser]. *)
Record UpsertUser := {
  u_id : val;
  u_email : val;
  u_firstName : val;
  u_lastName : val;
  u_profileImageUrl : val
}.

Section WithStorage.

(** [storage.upsertUser]: the error it raises on a record, if any. *)
Variable storage_upsertUser : UpsertUser -> option Error.

(** The record is built, property by property, before the collaborator
    is called; the record written is returned. *)
Definition upsertUser (claims : val) : M UpsertUser :=
  sub ← get_prop claims "sub";
  email ← get_prop claims "email";
  first_name ← get_prop claims "first_name";
  last_name ← get_prop claims "last_name";
  profile_image_url ← get_prop claims "profile_image_url";
  let record :=
    {| u_id := sub;
       u_email := email;
       u_firstName := first_name;
       u_lastName := last_name;
       u_profileImageUrl := profile_image_url |} in
  match storage_upsertUser record with
  | Some e => throw e
  | None => ret record
  end.

(** [verify(tokens, verified)]: the result is the user given to
    [verified(null, user)], with the record that was upserted. *)
Definition verify (tokens : TokenResponse) : M (val * UpsertUser) :=
  user ← alloc ∅;
  updateUserSession user tokens;;
  claims ← tokens_claims tokens;
  record ← upsertUser claims;
  ret (user, record).

End WithStorage.

(** *** [GET /api/login] and [GET /api/callback] *)

Record AuthenticateOptions := {
  prompt : option string;
  scopes : list string;
  successReturnToOrRedirect : option string;
  failureRedirect : option string
}.

(** What becomes of a request for a federated route: the route is not
    mounted, passport knows no strategy of that name, or the request is
    handed to the strategy. *)
Inductive Routed :=
| NotMounted
| UnknownStrategy (strategy : string)
| Authenticate (s : Strategy) (options : AuthenticateOptions).

(** [passport.authenticate(strategy, options)(req, res, next)], up to the
    choice of the strategy in the registry. *)
Definition passport_authenticate (strategy : string)
    (options : AuthenticateOptions) (w : World) : Routed :=
  match strategies w !! strategy with
  | Some s => Authenticate s options
  | None => UnknownStrategy strategy
  end.

Definition login_get (env : Env) (req : Request) (w : World) : Routed :=
  if truthy (isReplitEnvironment env) then
    passport_authenticate (strategy_name (req_hostname req))
      {| prompt := Some "login consent";
         scopes := ["openid"; "email"; "profile"; "offline_access"];
         successReturnToOrRedirect := None;
         failureRedirect := None |} w
  else NotMounted.

Definition callback_get (env : Env) (req : Request) (w : World) : Routed :=
  if truthy (isReplitEnvironment env) then
    passport_authenticate (strategy_name (req_hostname req))
      {| prompt := None;
         scopes := [];
         successReturnToOrRedirect := Some "/";
         failureRedirect := Some "/api/login" |} w
  else NotMounted.

(** A request for a route protected by [isAuthenticated], arriving with
    the session cookie [sid]: the middleware chain, then the check. *)
Definition serve_protected (env : Env) (sid : string) (body : val)
    (hostname : string) : M Outcome :=
  req ← incoming env sid body hostname;
  isAuthenticated env req.

End Wiring.
Export Wiring.

(** ** The paths of the authentication check *)

Module Paths.

(** What [req.user[k]] reads when it does not throw. *)
Definition user_field (w : World) (req : Request) (k : string) : val :=
  match req_user req with
  | VRef l =>
      match heap w !! l with
      | Some o => field o k
      | None => VUndef
      end
  | _ => VUndef
  end.

Definition nullish (v : val) : bool :=
  match v with
  | VUndef | VNull => true
  | _ => false
  end.

(** The session of the request, when it is an object, is in the heap. *)
Definition session_live (w : World) (req : Request) : Prop :=
  forall ls, req_session req = VRef ls -> is_Some (heap w !! ls).

(** The world after a discovery and, for the last two, a token grant. *)
Definition after_discovery (env : Env) (w : World) (r : Error + Config) : World :=
  set_trace
    (EvDiscovery (default "https://replit.com/oidc" (ISSUER_URL env))
       (default EmptyString (REPL_ID env)) r :: trace w) w.

Definition after_grant (env : Env) (w : World) (cfg : Config) (tok : val)
    (r : Error + TokenResponse) : World :=
  set_trace (EvRefreshTokenGrant cfg tok r :: trace (after_discovery env w (inr cfg))) w.

(** One constructor per way through [isAuthenticated]. *)
Inductive check_path (env : Env) (req : Request) (w : World)
  : Res Outcome -> World -> Prop :=
| path_demo :
    truthy (demo_payload w req) = true ->
    check_path env req w (Ok (Next (set_req_user req (demo_payload w req)))) w
| path_disabled :
    truthy (demo_payload w req) = false ->
    truthy (isReplitEnvironment env) = false ->
    check_path env req w (Ok unauthorized) w
| path_anonymous :
    truthy (demo_payload w req) = false ->
    truthy (isReplitEnvironment env) = true ->
    req_isAuthenticated req = false ->
    check_path env req w (Ok unauthorized) w
| path_no_user :
    truthy (demo_payload w req) = false ->
    truthy (isReplitEnvironment env) = true ->
    req_isAuthenticated req = true ->
    nullish (req_user req) = true ->
    check_path env req w (Throw (TypeError "expires_at")) w
| path_no_expiry :
    truthy (demo_payload w req) = false ->
    truthy (isReplitEnvironment env) = true ->
    req_isAuthenticated req = true ->
    nullish (req_user req) = false ->
    truthy (user_field w req "expires_at") = false ->
    check_path env req w (Ok unauthorized) w
| path_fresh l o :
    truthy (demo_payload w req) = false ->
    truthy (isReplitEnvironment env) = true ->
    req_isAuthenticated req = true ->
    principal w req l o ->
    truthy (field o "expires_at") = true ->
    num_le (to_number_ext env) (now env) (field o "expires_at") = true ->
    check_path env req w (Ok (Next req)) w
| path_no_token l o :
    truthy (demo_payload w req) = false ->
    truthy (isReplitEnvironment env) = true ->
    req_isAuthenticated req = true ->
    principal w req l o ->
    truthy (field o "expires_at") = true ->
    num_le (to_number_ext env) (now env) (field o "expires_at") = false ->
    truthy (field o "refresh_token") = false ->
    check_path env req w (Ok unauthorized) w
| path_discovery_failed l o e :
    truthy (demo_payload w req) = false ->
    truthy (isReplitEnvironment env) = true ->
    req_isAuthenticated req = true ->
    principal w req l o ->
    truthy (field o "expires_at") = true ->
    num_le (to_number_ext env) (now env) (field o "expires_at") = false ->
    truthy (field o "refresh_token") = true ->
    discovery env (trace w) (default "https://replit.com/oidc" (ISSUER_URL env))
      (default EmptyString (REPL_ID env)) = inl e ->
    check_path env req w (Ok unauthorized) (after_discovery env w (inl e))
| path_grant_failed l o cfg e :
    truthy (demo_payload w req) = false ->
    truthy (isReplitEnvironment env) = true ->
    req_isAuthenticated req = true ->
    principal w req l o ->
    truthy (field o "expires_at") = true ->
    num_le (to_number_ext env) (now env) (field o "expires_at") = false ->
    truthy (field o "refresh_token") = true ->
    discovery env (trace w) (default "https://replit.com/oidc" (ISSUER_URL env))
      (default EmptyString (REPL_ID env)) = inr cfg ->
    refreshTokenGrant env (trace (after_discovery env w (inr cfg))) cfg
      (field o "refresh_token") = inl e ->
    check_path env req w (Ok unauthorized)
      (after_grant env w cfg (field o "refresh_token") (inl e))
| path_refreshed l o cfg tokens :
    truthy (demo_payload w req) = false ->
    truthy (isReplitEnvironment env) = true ->
    req_isAuthenticated req = true ->
    principal w req l o ->
    truthy (field o "expires_at") = true ->
    num_le (to_number_ext env) (now env) (field o "expires_at") = false ->
    truthy (field o "refresh_token") = true ->
    discovery env (trace w) (default "https://replit.com/oidc" (ISSUER_URL env))
      (default EmptyString (REPL_ID env)) = inr cfg ->
    refreshTokenGrant env (trace (after_discovery env w (inr cfg))) cfg
      (field o "refresh_token") = inr tokens ->
    check_path env req w (Ok (Next req))
      (set_heap (refreshed (heap w) l o tokens)
         (after_grant env w cfg (field o "refresh_token") (inr tokens))).

(** What [req.body[k]] reads when the body is not nullish. *)
Definition body_field (w : World) (req : Request) (k : string) : val :=
  match req_body req with
  | VRef l =>
      match heap w !! l with
      | Some o => field o k
      | None => VUndef
      end
  | _ => VUndef
  end.

Definition after_validate (env : Env) (w : World) (req : Request) : World :=
  set_trace
    (EvValidateCredentials (body_field w req "email") (body_field w req "password")
       (validateCredentials env (trace w)
          (body_field w req "email") (body_field w req "password"))
     :: trace w) w.

Definition after_login_error (w : World) (e : Error) : World :=
  set_trace (EvConsoleError "Login error:" e :: trace w) w.

(** One constructor per way through [POST /api/login]. *)
Inductive login_path (env : Env) (req : Request) (w : World)
  : Outcome -> World -> Prop :=
| login_no_body :
    nullish (req_body req) = true ->
    login_path env req w (Reply 500 (BMessage "Ошибка входа в систему"))
      (after_login_error w (TypeError "email"))
| login_missing :
    nullish (req_body req) = false ->
    truthy (body_field w req "email") && truthy (body_field w req "password")
    = false ->
    login_path env req w (Reply 400 (BMessage "Email и пароль обязательны")) w
| login_validator_failed err :
    nullish (req_body req) = false ->
    truthy (body_field w req "email") && truthy (body_field w req "password")
    = true ->
    validateCredentials env (trace w)
      (body_field w req "email") (body_field w req "password") = inl err ->
    login_path env req w (Reply 500 (BMessage "Ошибка входа в систему"))
      (after_login_error (after_validate env w req) err)
| login_unknown f user w2 :
    nullish (req_body req) = false ->
    truthy (body_field w req "email") && truthy (body_field w req "password")
    = true ->
    validateCredentials env (trace w)
      (body_field w req "email") (body_field w req "password") = inr f ->
    materialise f (after_validate env w req) = (Ok user, w2) ->
    truthy user = false ->
    login_path env req w (Reply 401 (BMessage "Неверный email или пароль")) w2
| login_ok f user w2 ls s :
    nullish (req_body req) = false ->
    truthy (body_field w req "email") && truthy (body_field w req "password")
    = true ->
    validateCredentials env (trace w)
      (body_field w req "email") (body_field w req "password") = inr f ->
    materialise f (after_validate env w req) = (Ok user, w2) ->
    truthy user = true ->
    req_session req = VRef ls ->
    heap w2 !! ls = Some s ->
    login_path env req w
      (Reply 200 (BUserMessage user "Успешный вход в систему"))
      (set_heap (<[ls := <["user" := user]> s]> (heap w2)) w2)
| login_no_session f user w2 :
    nullish (req_body req) = false ->
    truthy (body_field w req "email") && truthy (body_field w req "password")
    = true ->
    validateCredentials env (trace w)
      (body_field w req "email") (body_field w req "password") = inr f ->
    materialise f (after_validate env w req) = (Ok user, w2) ->
    truthy user = true ->
    (forall ls s, req_session req = VRef ls -> heap w2 !! ls = Some s -> False) ->
    login_path env req w (Reply 500 (BMessage "Ошибка входа в систему"))
      (after_login_error w2 (TypeError "user")).

(** The record [upsertUser] derives from a claims object. *)
Definition user_record (c : gmap string val) : UpsertUser :=
  {| u_id := field c "sub";
     u_email := field c "email";
     u_firstName := field c "first_name";
     u_lastName := field c "last_name";
     u_profileImageUrl := field c "profile_image_url" |}.

Definition is_validate (ev : Event) : bool :=
  match ev with
  | EvValidateCredentials _ _ _ => true
  | _ => false
  end.

(** Number of calls to the credential validator recorded in a trace. *)
Definition validate_calls (t : list Event) : nat :=
  length (List.filter is_validate t).

(** Events of the identity-provider client. *)
Definition is_idp (ev : Event) : bool :=
  match ev with
  | EvDiscovery _ _ _ | EvRefreshTokenGrant _ _ _ => true
  | _ => false
  end.

(** [pieces.join(sep)]. *)
Fixpoint join (sep : ascii) (pieces : list string) : string :=
  match pieces with
  | [] => EmptyString
  | [p] => p
  | p :: ps => p +:+ String sep (join sep ps)
  end.

Fixpoint contains (c : ascii) (s : string) : bool :=
  match s with
  | EmptyString => false
  | String a r => Ascii.eqb a c || contains c r
  end.

End Paths.
Export Paths.

(** ** More deployments *)

Module Cases.

(** A token response whose ID token carries no [exp] claim. *)
Definition tokens_without_exp : TokenResponse :=
  {| tok_claims := Some {[ "sub" := VStr "u1"; "email" := VStr "u1@example.com" ]};
     tok_access_token := VStr "at3";
     tok_refresh_token := VStr "rt3" |}.

(** A token response without ID token. *)
Definition tokens_without_claims : TokenResponse :=
  {| tok_claims := None;
     tok_access_token := VStr "at4";
     tok_refresh_token := VStr "rt4" |}.

(** A hosted deployment whose token endpoint answers without [exp]. *)
Definition forgetful : Env :=
  Scenario.deployment (Some "repl-1") 1700000000123 (inr tokens_without_exp) None.

(** A hosted deployment with the given list of allowed hostnames. *)
Definition with_domains (domains : option string) : Env :=
  {| REPL_ID := REPL_ID Scenario.hosted;
     REPLIT_DOMAINS := domains;
     ISSUER_URL := ISSUER_URL Scenario.hosted;
     Date_now := Date_now Scenario.hosted;
     to_number_ext := to_number_ext Scenario.hosted;
     discovery := discovery Scenario.hosted;
     refreshTokenGrant := refreshTokenGrant Scenario.hosted;
     validateCredentials := validateCredentials Scenario.hosted;
     sessionStore_destroy := sessionStore_destroy Scenario.hosted;
     generateSessionId := generateSessionId Scenario.hosted;
     URL_ext := URL_ext Scenario.hosted |}.

(** A hosted deployment whose list has a piece padded with a blank. *)
Definition padded : Env :=
  with_domains (Some "a.example, b.example,c.example").

(** A storage that accepts every user, and one that is down. *)
Definition storage_ok : UpsertUser -> option Error := fun _ => None.

Definition storage_down : UpsertUser -> option Error :=
  fun _ => Some (Failure "database unreachable").

(** A request for the given hostname, with neither session nor user. *)
Definition visitor (hostname : string) : Request :=
  {| req_session := VUndef;
     req_sessionID := EmptyString;
     req_user := VUndef;
     req_isAuthenticated := false;
     req_body := VUndef;
     req_hostname := hostname |}.

End Cases.

(** ** Properties *)

(** *** The string primitives on examples *)

Example split_default_domains :
  split "," "replit.app,replit.dev,replit.com"
  = ["replit.app"; "replit.dev"; "replit.com"].
Proof. reflexivity. Qed.

Example split_keeps_empty_pieces :
  split "," "a,,b," = ["a"; EmptyString; "b"; EmptyString]
  /\ split "," EmptyString = [EmptyString].
Proof. split; reflexivity. Qed.

Example trim_examples :
  trim "  repl 1 " = "repl 1"
  /\ trim "   " = EmptyString
  /\ trim (string_of_list_ascii (utf8 [194; 160; 9; 226; 128; 168]%nat))
     = EmptyString.
Proof. repeat split; reflexivity. Qed.

Example marker_values :
  isReplitEnvironment Scenario.hosted = VBool true
  /\ isReplitEnvironment Scenario.demo_only = VUndef
  /\ isReplitEnvironment
       (Scenario.deployment (Some EmptyString) 0 (inr Scenario.tokens0) None)
     = VStr EmptyString
  /\ isReplitEnvironment
       (Scenario.deployment (Some "  ") 0 (inr Scenario.tokens0) None)
     = VBool false.
Proof. repeat split; reflexivity. Qed.

(** *** Running the primitives *)

Lemma opt_prop_session_user req w :
  opt_prop (req_session req) "user" w = (Ok (demo_payload w req), w).
Proof.
  unfold demo_payload, opt_prop, get_prop.
  destruct (req_session req) as [| | | | |l]; try reflexivity.
  destruct (heap w !! l); reflexivity.
Qed.

Lemma get_prop_ref l o k w :
  heap w !! l = Some o -> get_prop (VRef l) k w = (Ok (field o k), w).
Proof. intros H. unfold get_prop. by rewrite H. Qed.

Lemma set_prop_ref l o k x w :
  heap w !! l = Some o ->
  set_prop (VRef l) k x w = (Ok tt, set_heap (<[l := <[k := x]> o]> (heap w)) w).
Proof. intros H. unfold set_prop. by rewrite H. Qed.

Lemma bind_ok {A B} (m : M A) (k : A -> M B) w a w' :
  m w = (Ok a, w') -> (m ≫= k) w = k a w'.
Proof. intros H. unfold mbind, M_bind, bind. by rewrite H. Qed.

Lemma marker_absent_disables env :
  REPL_ID env = None -> truthy (isReplitEnvironment env) = false.
Proof. intros H. unfold isReplitEnvironment. by rewrite H. Qed.

Lemma blank_marker_disables env s :
  REPL_ID env = Some s -> trim s = EmptyString ->
  truthy (isReplitEnvironment env) = false.
Proof.
  intros H Ht. unfold isReplitEnvironment, js_and. rewrite H, Ht.
  by destruct (truthy (VStr s)) eqn:E.
Qed.

(** *** The two entry tests of the check *)

Lemma check_demo_session env req w :
  truthy (demo_payload w req) = true ->
  isAuthenticated env req w
  = (Ok (Next (set_req_user req (demo_payload w req))), w).
Proof.
  intros Hd. unfold isAuthenticated.
  rewrite (bind_ok _ _ _ _ _ (opt_prop_session_user req w)), Hd. done.
Qed.

Lemma check_disabled env req w :
  truthy (demo_payload w req) = false ->
  truthy (isReplitEnvironment env) = false ->
  isAuthenticated env req w = (Ok unauthorized, w).
Proof.
  intros Hd Hoff. unfold isAuthenticated.
  rewrite (bind_ok _ _ _ _ _ (opt_prop_session_user req w)), Hd, Hoff.
  reflexivity.
Qed.

(** *** C1: a demo session wins *)

(** C1. Whenever the session carries a demo payload, the authentication
    check proceeds, and the request it forwards has that payload as its
    [user], in place of whatever principal passport had put there, and
    is otherwise the request it received; the current-user query
    answers 200 with the payload; neither touches the world, and the
    result is the same whatever federated principal, passport verdict
    or deployment the request comes with. *)
Theorem demo_session_wins env req w :
  truthy (demo_payload w req) = true ->
  isAuthenticated env req w
    = (Ok (Next {| req_session := req_session req;
                   req_sessionID := req_sessionID req;
                   req_user := demo_payload w req;
                   req_isAuthenticated := req_isAuthenticated req;
                   req_body := req_body req;
                   req_hostname := req_hostname req |}), w)
  /\ auth_user req w = (Ok (Reply 200 (BJson (demo_payload w req))), w).
Proof.
  intros Hd. split; [by apply check_demo_session |].
  unfold auth_user.
  rewrite (bind_ok _ _ _ _ _ (opt_prop_session_user req w)), Hd. done.
Qed.

Lemma demo_session_wins_witness :
  let w := Scenario.world_of
             (Scenario.principal_obj (VNum 5) VUndef) (VRef 5%positive) in
  req_user Scenario.request = VRef 1%positive
  /\ isAuthenticated Scenario.hosted Scenario.request w
     = (Ok (Next {| req_session := VRef 2%positive;
                    req_sessionID := "s1";
                    req_user := VRef 5%positive;
                    req_isAuthenticated := true;
                    req_body := VRef 6%positive;
                    req_hostname := "a.example" |}), w)
  /\ auth_user Scenario.request w = (Ok (Reply 200 (BJson (VRef 5%positive))), w).
Proof.
  intros w. split; [reflexivity |].
  exact (demo_session_wins Scenario.hosted Scenario.request w eq_refl).
Defined.

(** *** C6: demo-only deployments *)

(** C6. Without a demo session payload, a deployment whose federated
    path is disabled (the marker is absent, empty or blank) answers 401
    Unauthorized, whatever else the request carries, and calls no
    collaborator. *)
Theorem disabled_federation_rejects env req w :
  truthy (demo_payload w req) = false ->
  truthy (isReplitEnvironment env) = false ->
  isAuthenticated env req w = (Ok (Reply 401 (BMessage "Unauthorized")), w).
Proof. apply check_disabled. Qed.

Lemma disabled_federation_rejects_witness :
  let w := Scenario.world_of
             (Scenario.principal_obj (VNum 1700003600) (VStr "rt1")) VUndef in
  REPL_ID Scenario.demo_only = None
  /\ isAuthenticated Scenario.demo_only Scenario.request w
     = (Ok (Reply 401 (BMessage "Unauthorized")), w).
Proof.
  intros w. split; [reflexivity |].
  apply (disabled_federation_rejects Scenario.demo_only Scenario.request w).
  - reflexivity.
  - apply marker_absent_disables. reflexivity.
Defined.

(** *** The federated branch *)

(** Past the two entry tests the check is the federated branch. *)
Lemma federated_branch env req w l o :
  truthy (demo_payload w req) = false ->
  truthy (isReplitEnvironment env) = true ->
  principal w req l o ->
  isAuthenticated env req w =
    if negb (req_isAuthenticated req) || negb (truthy (field o "expires_at"))
    then (Ok unauthorized, w)
    else if num_le (to_number_ext env) (now env) (field o "expires_at")
    then (Ok (Next req), w)
    else if negb (truthy (field o "refresh_token"))
    then (Ok unauthorized, w)
    else
      try_catch
        (config ← getOidcConfig env;
         tokenResponse ← client_refreshTokenGrant env config (field o "refresh_token");
         updateUserSession (VRef l) tokenResponse;;
         mret (Next req))
        (fun _ => mret unauthorized) w.
Proof.
  intros Hd Hon [Hu Hl]. unfold isAuthenticated.
  rewrite (bind_ok _ _ _ _ _ (opt_prop_session_user req w)), Hd, Hon. simpl.
  rewrite Hu. destruct (req_isAuthenticated req); simpl.
  - rewrite (bind_ok _ _ _ _ _ (bind_ok _ _ _ _ _ (get_prop_ref l o _ w Hl))).
    unfold mret, M_ret, ret at 1.
    destruct (truthy (field o "expires_at")); simpl; [| reflexivity].
    rewrite (bind_ok _ _ _ _ _ (get_prop_ref l o _ w Hl)).
    fold (now env).
    destruct (num_le _ _ _); [reflexivity |].
    rewrite (bind_ok _ _ _ _ _ (get_prop_ref l o _ w Hl)).
    destruct (truthy (field o "refresh_token")); reflexivity.
  - reflexivity.
Qed.

(** *** [updateUserSession] *)

Lemma fresh_loc_unused (h : gmap loc (gmap string val)) :
  h !! fresh (dom h) = None.
Proof. apply not_elem_of_dom, is_fresh. Qed.

Lemma fresh_loc_ne (h : gmap loc (gmap string val)) l o :
  h !! l = Some o -> fresh (dom h) ≠ l.
Proof. intros H E. rewrite <- E, fresh_loc_unused in H. discriminate. Qed.

Lemma with_claims_lookup (h : gmap loc (gmap string val)) tokens l o :
  h !! l = Some o -> with_claims h tokens !! l = Some o.
Proof.
  intros H. unfold with_claims. destruct (tok_claims tokens); [| done].
  rewrite lookup_insert_ne; [done | by eapply fresh_loc_ne].
Qed.

Lemma tokens_claims_run tokens w :
  tokens_claims tokens w
  = (Ok (claims_value (heap w) tokens), set_heap (with_claims (heap w) tokens) w).
Proof.
  unfold tokens_claims, claims_value, with_claims.
  destruct (tok_claims tokens); [reflexivity |]. by destruct w.
Qed.

Lemma claims_exp_read tokens (h : gmap loc (gmap string val)) st sg tr l o o' :
  h !! l = Some o ->
  let w := {| heap := <[l := o']> (with_claims h tokens); store := st;
              strategies := sg; trace := tr |} in
  opt_prop (claims_value h tokens) "exp" w = (Ok (claims_exp tokens), w).
Proof.
  intros Hl w. subst w. unfold claims_value, claims_exp, with_claims.
  destruct (tok_claims tokens) as [c|]; [| reflexivity].
  unfold opt_prop, get_prop. simpl.
  rewrite lookup_insert_ne by (intros E; by eapply fresh_loc_ne).
  by rewrite lookup_insert_eq.
Qed.

Lemma set_prop_at h st sg tr l o k x :
  h !! l = Some o ->
  set_prop (VRef l) k x {| heap := h; store := st; strategies := sg; trace := tr |}
  = (Ok tt, {| heap := <[l := <[k := x]> o]> h; store := st; strategies := sg;
               trace := tr |}).
Proof. intros H. unfold set_prop. simpl. by rewrite H. Qed.

Lemma get_prop_at h st sg tr l o k :
  h !! l = Some o ->
  get_prop (VRef l) k {| heap := h; store := st; strategies := sg; trace := tr |}
  = (Ok (field o k), {| heap := h; store := st; strategies := sg; trace := tr |}).
Proof. intros H. unfold get_prop. simpl. by rewrite H. Qed.

Lemma field_insert_eq (o : gmap string val) k x : field (<[k := x]> o) k = x.
Proof. unfold field. by rewrite lookup_insert_eq. Qed.

Lemma field_insert_ne (o : gmap string val) k k' x :
  k ≠ k' -> field (<[k := x]> o) k' = field o k'.
Proof. intros H. unfold field. by rewrite lookup_insert_ne. Qed.

Lemma updateUserSession_run l o tokens w :
  heap w !! l = Some o ->
  updateUserSession (VRef l) tokens w
  = (Ok tt, set_heap (refreshed (heap w) l o tokens) w).
Proof.
  intros Hl. unfold updateUserSession.
  rewrite (bind_ok _ _ _ _ _ (tokens_claims_run tokens w)).
  destruct w as [h st sg tr]. simpl in Hl. unfold set_heap. simpl.
  set (c := claims_value h tokens).
  assert (Hl1 : with_claims h tokens !! l = Some o) by by apply with_claims_lookup.
  rewrite (bind_ok _ _ _ _ _ (set_prop_at _ _ _ _ l o _ _ Hl1)).
  rewrite (bind_ok _ _ _ _ _ (set_prop_at _ _ _ _ l _ _ _ (lookup_insert_eq _ _ _))).
  rewrite insert_insert_eq.
  rewrite (bind_ok _ _ _ _ _ (set_prop_at _ _ _ _ l _ _ _ (lookup_insert_eq _ _ _))).
  rewrite insert_insert_eq.
  rewrite (bind_ok _ _ _ _ _ (get_prop_at _ _ _ _ l _ _ (lookup_insert_eq _ _ _))).
  rewrite !field_insert_ne by discriminate.
  rewrite field_insert_eq.
  rewrite (bind_ok _ _ _ _ _ (claims_exp_read tokens h _ _ _ l o _ Hl)).
  rewrite (set_prop_at _ _ _ _ l _ _ _ (lookup_insert_eq _ _ _)).
  rewrite insert_insert_eq. reflexivity.
Qed.

(** *** The refresh attempt of the check *)

Lemma refresh_block env req w l o tok :
  truthy (isReplitEnvironment env) = true ->
  heap w !! l = Some o ->
  try_catch
    (config ← getOidcConfig env;
     tokenResponse ← client_refreshTokenGrant env config tok;
     updateUserSession (VRef l) tokenResponse;;
     mret (Next req))
    (fun _ => mret unauthorized) w
  = let issuer := default "https://replit.com/oidc" (ISSUER_URL env) in
    let client_id := default EmptyString (REPL_ID env) in
    match discovery env (trace w) issuer client_id with
    | inl e =>
        (Ok unauthorized,
         set_trace (EvDiscovery issuer client_id (inl e) :: trace w) w)
    | inr cfg =>
        let t1 := EvDiscovery issuer client_id (inr cfg) :: trace w in
        match refreshTokenGrant env t1 cfg tok with
        | inl e =>
            (Ok unauthorized,
             set_trace (EvRefreshTokenGrant cfg tok (inl e) :: t1) w)
        | inr tokens =>
            (Ok (Next req),
             set_trace (EvRefreshTokenGrant cfg tok (inr tokens) :: t1)
               (set_heap (refreshed (heap w) l o tokens) w))
        end
    end.
Proof.
  intros Hon Hl. unfold try_catch, getOidcConfig. rewrite Hon. simpl.
  unfold mbind, M_bind, bind, history, emit, settle, client_refreshTokenGrant.
  simpl.
  destruct (discovery env (trace w) _ _) as [e|cfg]; simpl; [reflexivity |].
  unfold mbind, M_bind, bind, history, emit, settle. simpl.
  destruct (refreshTokenGrant env _ cfg tok) as [e|tokens]; simpl; [reflexivity |].
  rewrite (updateUserSession_run l o tokens (set_trace _ (set_trace _ w)) Hl).
  reflexivity.
Qed.

(** *** C2: a principal that has not expired *)

(** C2, as amended. With no demo session and the federated path enabled,
    an authenticated principal whose [expires_at] is a nonzero number
    with [now <= expires_at] proceeds, and the world is untouched: no
    discovery, no refresh. *)
Theorem fresh_principal_proceeds env req w l o e :
  truthy (demo_payload w req) = false ->
  truthy (isReplitEnvironment env) = true ->
  req_isAuthenticated req = true ->
  principal w req l o ->
  field o "expires_at" = VNum e ->
  e ≠ 0 ->
  now env <= e ->
  isAuthenticated env req w = (Ok (Next req), w).
Proof.
  intros Hd Hon Ha Hp He Hnz Hle.
  rewrite (federated_branch env req w l o Hd Hon Hp), Ha, He. simpl.
  apply Z.eqb_neq in Hnz. rewrite Hnz. simpl.
  unfold num_le. simpl. apply Z.leb_le in Hle. by rewrite Hle.
Qed.

Lemma fresh_principal_proceeds_witness :
  let p := Scenario.principal_obj (VNum 1700003600) (VStr "rt1") in
  let w := Scenario.world_of p VUndef in
  now Scenario.hosted <= 1700003600
  /\ isAuthenticated Scenario.hosted Scenario.request w
     = (Ok (Next Scenario.request), w).
Proof.
  intros p w. split; [by vm_compute |].
  apply (fresh_principal_proceeds Scenario.hosted Scenario.request w
           1%positive p 1700003600).
  - reflexivity.
  - reflexivity.
  - reflexivity.
  - split; reflexivity.
  - reflexivity.
  - discriminate.
  - by vm_compute.
Defined.

(** C2 as stated fails twice over.  On a demo-only deployment a request
    with no demo session and an authenticated principal expiring in an
    hour is answered 401; and on a hosted deployment whose clock reads
    the epoch, a principal with [expires_at = 0] satisfies
    [now <= expires_at] and is answered 401 as well. *)
Lemma fresh_principal_rejected :
  (let p := Scenario.principal_obj (VNum 1700003600) (VStr "rt1") in
   let w := Scenario.world_of p VUndef in
   truthy (demo_payload w Scenario.request) = false
   /\ req_isAuthenticated Scenario.request = true
   /\ principal w Scenario.request 1%positive p
   /\ field p "expires_at" = VNum 1700003600
   /\ now Scenario.demo_only <= 1700003600
   /\ isAuthenticated Scenario.demo_only Scenario.request w
      = (Ok (Reply 401 (BMessage "Unauthorized")), w))
  /\
  (let p := Scenario.principal_obj (VNum 0) (VStr "rt1") in
   let w := Scenario.world_of p VUndef in
   truthy (demo_payload w Scenario.request) = false
   /\ truthy (isReplitEnvironment Scenario.at_epoch) = true
   /\ req_isAuthenticated Scenario.request = true
   /\ principal w Scenario.request 1%positive p
   /\ field p "expires_at" = VNum 0
   /\ now Scenario.at_epoch <= 0
   /\ isAuthenticated Scenario.at_epoch Scenario.request w
      = (Ok (Reply 401 (BMessage "Unauthorized")), w)).
Proof.
  split; cbv zeta; repeat split; try reflexivity; by vm_compute.
Qed.

(** *** C9: no expiry, no entry *)

(** Without a principal object the federated branch never proceeds. *)
Lemma no_principal_no_next env req w r w' :
  truthy (demo_payload w req) = false ->
  (forall l o, ~ principal w req l o) ->
  isAuthenticated env req w <> (Ok (Next r), w').
Proof.
  intros Hd Hnp. unfold isAuthenticated.
  rewrite (bind_ok _ _ _ _ _ (opt_prop_session_user req w)), Hd.
  destruct (truthy (isReplitEnvironment env)); simpl; [| discriminate].
  destruct (req_isAuthenticated req); simpl; [| discriminate].
  destruct (req_user req) as [| | | | |l] eqn:Hu; try discriminate.
  destruct (heap w !! l) as [o|] eqn:Hl.
  - destruct (Hnp l o). by split.
  - unfold mbind, M_bind, bind, get_prop. rewrite Hl. discriminate.
Qed.

(** C9. With no demo session and the federated path enabled, a principal
    whose [expires_at] is absent, zero or otherwise falsy is answered
    401 with the world untouched, so without a refresh attempt; and
    whenever the check lets such a request proceed, the principal had a
    truthy [expires_at]. *)
Theorem falsy_expiry_rejects env req w :
  truthy (demo_payload w req) = false ->
  truthy (isReplitEnvironment env) = true ->
  (forall l o,
      principal w req l o ->
      truthy (field o "expires_at") = false ->
      isAuthenticated env req w = (Ok (Reply 401 (BMessage "Unauthorized")), w))
  /\ (forall r w',
         isAuthenticated env req w = (Ok (Next r), w') ->
         exists l o, principal w req l o /\ truthy (field o "expires_at") = true).
Proof.
  intros Hd Hon. split.
  - intros l o Hp He.
    rewrite (federated_branch env req w l o Hd Hon Hp), He.
    by rewrite orb_true_r.
  - intros r w' Hrun.
    destruct (req_user req) as [| | | | |l] eqn:Hu;
      try (exfalso; eapply (no_principal_no_next env req w r w' Hd);
           [intros l' o' [Hc _]; congruence | exact Hrun]).
    destruct (heap w !! l) as [o|] eqn:Hl.
    + exists l, o. split; [by split |].
      rewrite (federated_branch env req w l o Hd Hon (conj Hu Hl)) in Hrun.
      destruct (truthy (field o "expires_at")); [reflexivity |].
      rewrite orb_true_r in Hrun. discriminate.
    + exfalso. eapply (no_principal_no_next env req w r w' Hd); [| exact Hrun].
      intros l' o' [Hc Hl']. congruence.
Qed.

Lemma falsy_expiry_rejects_witness :
  let p0 := Scenario.principal_obj (VNum 0) (VStr "rt1") in
  let pu := delete "expires_at" (Scenario.principal_obj (VNum 5) (VStr "rt1")) in
  isAuthenticated Scenario.hosted Scenario.request (Scenario.world_of p0 VUndef)
    = (Ok (Reply 401 (BMessage "Unauthorized")), Scenario.world_of p0 VUndef)
  /\ isAuthenticated Scenario.hosted Scenario.request (Scenario.world_of pu VUndef)
    = (Ok (Reply 401 (BMessage "Unauthorized")), Scenario.world_of pu VUndef).
Proof.
  intros p0 pu. split.
  - apply (proj1 (falsy_expiry_rejects Scenario.hosted Scenario.request
                    (Scenario.world_of p0 VUndef) eq_refl eq_refl)
             1%positive p0); [split; reflexivity | reflexivity].
  - apply (proj1 (falsy_expiry_rejects Scenario.hosted Scenario.request
                    (Scenario.world_of pu VUndef) eq_refl eq_refl)
             1%positive pu); [split; reflexivity | reflexivity].
Defined.

(** *** C3: a successful refresh *)

Lemma no_new_events (evs t : list Event) : t = evs ++ t -> evs = [].
Proof. intros H. apply (app_inv_tail t). by rewrite <- H. Qed.

(** C3. Take a request whose principal has expired and holds a refresh
    token.  If the run of the check makes a refresh call that returns
    the token response [tokens], then the request proceeds and the
    principal object at [l], which the session and [req.user] share,
    has its claims, access token, refresh token and expiry overwritten from
    [tokens], the expiry being the [exp] claim of the new token.
    Nothing else in the heap changes, apart from the new claims object. *)
Theorem refresh_success_overwrites env req w l o e out w' evs cfg tok tokens :
  principal w req l o ->
  field o "expires_at" = VNum e ->
  now env > e ->
  truthy (field o "refresh_token") = true ->
  isAuthenticated env req w = (out, w') ->
  trace w' = evs ++ trace w ->
  In (EvRefreshTokenGrant cfg tok (inr tokens)) evs ->
  out = Ok (Next req)
  /\ heap w' = refreshed (heap w) l o tokens
  /\ heap w' !! l
     = Some (overwritten o (claims_value (heap w) tokens) tokens)
  /\ field (overwritten o (claims_value (heap w) tokens) tokens) "expires_at"
     = claims_exp tokens
  /\ tok = field o "refresh_token".
Proof.
  intros Hp He Hnow Htok Hrun Htr Hin.
  assert (Hstay : w' = w -> False).
  { intros ->. apply no_new_events in Htr. subst evs. destruct Hin. }
  destruct (truthy (demo_payload w req)) eqn:Hd.
  { rewrite (check_demo_session env req w Hd) in Hrun.
    destruct Hstay. congruence. }
  destruct (truthy (isReplitEnvironment env)) eqn:Hon; cycle 1.
  { rewrite (check_disabled env req w Hd Hon) in Hrun.
    destruct Hstay. congruence. }
  rewrite (federated_branch env req w l o Hd Hon Hp) in Hrun.
  destruct (negb (req_isAuthenticated req) || negb (truthy (field o "expires_at"))).
  { destruct Hstay. congruence. }
  destruct (num_le _ _ _).
  { destruct Hstay. congruence. }
  rewrite Htok in Hrun. simpl in Hrun.
  destruct Hp as [Hu Hl].
  rewrite (refresh_block env req w l o _ Hon Hl) in Hrun. cbv zeta in Hrun.
  destruct (discovery env (trace w) _ _) as [err|cfg0].
  { injection Hrun as <- <-. simpl in Htr.
    change (?a :: trace w) with ([a] ++ trace w) in Htr.
    apply app_inv_tail in Htr. subst evs.
    destruct Hin as [Hin | []]. discriminate. }
  destruct (refreshTokenGrant env _ cfg0 _) as [err|tokens0].
  { injection Hrun as <- <-. simpl in Htr.
    change (?a :: ?b :: trace w) with ([a; b] ++ trace w) in Htr.
    apply app_inv_tail in Htr. subst evs.
    destruct Hin as [Hin | [Hin | []]]; discriminate. }
  injection Hrun as <- <-. simpl in Htr.
  change (?a :: ?b :: trace w) with ([a; b] ++ trace w) in Htr.
  apply app_inv_tail in Htr. subst evs.
  destruct Hin as [Hin | [Hin | []]]; [| discriminate].
  injection Hin as -> -> ->.
  repeat split.
  - simpl. unfold refreshed. by rewrite lookup_insert_eq.
  - unfold overwritten. apply field_insert_eq.
Qed.

Lemma refresh_success_overwrites_witness :
  let p := Scenario.principal_obj (VNum 1699999000) (VStr "rt1") in
  let w := Scenario.world_of p VUndef in
  let run := isAuthenticated Scenario.hosted Scenario.request w in
  now Scenario.hosted > 1699999000
  /\ run.1 = Ok (Next Scenario.request)
  /\ heap run.2 = refreshed (heap w) 1%positive p Scenario.tokens0
  /\ heap run.2 !! 1%positive
     = Some (overwritten p (claims_value (heap w) Scenario.tokens0) Scenario.tokens0)
  /\ field (overwritten p (claims_value (heap w) Scenario.tokens0) Scenario.tokens0)
       "expires_at" = VNum 1700003600.
Proof.
  intros p w run.
  assert (Hnow : now Scenario.hosted > 1699999000) by by vm_compute.
  split; [exact Hnow |].
  pose (cfg := {| cfg_issuer := "https://replit.com/oidc";
                  cfg_client_id := "repl-1"; cfg_metadata := "metadata" |}).
  destruct (refresh_success_overwrites Scenario.hosted Scenario.request w
              1%positive p 1699999000 run.1 run.2
              [EvRefreshTokenGrant cfg (VStr "rt1") (inr Scenario.tokens0);
               EvDiscovery "https://replit.com/oidc" "repl-1" (inr cfg)]
              cfg (VStr "rt1") Scenario.tokens0)
    as (H1 & H2 & H3 & H4 & _).
  - split; reflexivity.
  - reflexivity.
  - exact Hnow.
  - reflexivity.
  - apply surjective_pairing.
  - by vm_compute.
  - left. reflexivity.
  - repeat split; assumption.
Defined.

(** *** C4: an expired principal *)

Ltac close_case :=
  repeat split; intros;
  try discriminate; try reflexivity;
  try (unfold refresh_calls; simpl; lia);
  try (right; eexists; reflexivity);
  try (left; reflexivity);
  eauto.

(** C4, as amended. With no demo session, take an authenticated
    principal whose [expires_at] is a nonzero number in the past.  The
    check answers 401 exactly when the refresh token is missing or the
    refresh attempt fails, that is the provider configuration (not to
    be had on a demo-only deployment) or the token grant; otherwise the
    request proceeds.  At most one refresh call is made, none when
    the token is missing, and a rejected request leaves the heap as it
    was. *)
Theorem expired_principal_rejected_iff env req w l o e out w' :
  truthy (demo_payload w req) = false ->
  req_isAuthenticated req = true ->
  principal w req l o ->
  field o "expires_at" = VNum e ->
  e ≠ 0 ->
  now env > e ->
  isAuthenticated env req w = (out, w') ->
  (out = Ok (Reply 401 (BMessage "Unauthorized")) <->
     truthy (field o "refresh_token") = false
     \/ exists err,
          refresh_attempt env (trace w) (field o "refresh_token") = inl err)
  /\ (out = Ok (Reply 401 (BMessage "Unauthorized")) \/ out = Ok (Next req))
  /\ (refresh_calls (trace w') <= refresh_calls (trace w) + 1)%nat
  /\ (truthy (field o "refresh_token") = false -> w' = w)
  /\ (out = Ok (Reply 401 (BMessage "Unauthorized")) -> heap w' = heap w).
Proof.
  intros Hd Ha Hp He Hnz Hnow Hrun.
  unfold refresh_attempt.
  destruct (truthy (isReplitEnvironment env)) eqn:Hon; simpl; cycle 1.
  { rewrite (check_disabled env req w Hd Hon) in Hrun.
    injection Hrun as <- <-. close_case. }
  rewrite (federated_branch env req w l o Hd Hon Hp), Ha, He in Hrun.
  simpl in Hrun. apply Z.eqb_neq in Hnz. rewrite Hnz in Hrun. simpl in Hrun.
  unfold num_le in Hrun. simpl in Hrun.
  assert (Hlt : (now env <=? e) = false) by (apply Z.leb_gt; lia).
  rewrite Hlt in Hrun.
  destruct (truthy (field o "refresh_token")) eqn:Htok; simpl in Hrun; cycle 1.
  { injection Hrun as <- <-. close_case. }
  destruct Hp as [Hu Hl].
  rewrite (refresh_block env req w l o _ Hon Hl) in Hrun. cbv zeta in Hrun.
  destruct (discovery env (trace w) _ _) as [err|cfg].
  { injection Hrun as <- <-. simpl. close_case. }
  destruct (refreshTokenGrant env _ cfg _) as [err|tokens].
  { injection Hrun as <- <-. simpl. close_case. }
  injection Hrun as <- <-. simpl. unfold refresh_calls. simpl.
  close_case.
  match goal with H : _ \/ _ |- _ => destruct H as [? | [? ?]]; discriminate end.
Qed.

Lemma expired_principal_rejected_iff_witness :
  let p := Scenario.principal_obj (VNum 1699999000) (VStr "rt1") in
  let w := Scenario.world_of p VUndef in
  let run := isAuthenticated Scenario.refusing Scenario.request w in
  now Scenario.refusing > 1699999000
  /\ run.1 = Ok (Reply 401 (BMessage "Unauthorized"))
  /\ (refresh_calls (trace run.2) <= refresh_calls (trace w) + 1)%nat
  /\ heap run.2 = heap w.
Proof.
  intros p w run.
  assert (Hnow : now Scenario.refusing > 1699999000) by by vm_compute.
  split; [exact Hnow |].
  destruct (expired_principal_rejected_iff Scenario.refusing Scenario.request w
              1%positive p 1699999000 run.1 run.2)
    as (Hiff & _ & Hcalls & _ & Hheap).
  - reflexivity.
  - reflexivity.
  - split; reflexivity.
  - reflexivity.
  - discriminate.
  - exact Hnow.
  - apply surjective_pairing.
  - assert (H401 : run.1 = Ok (Reply 401 (BMessage "Unauthorized"))).
    { apply Hiff. right. exists (Failure "invalid_grant"). reflexivity. }
    exact (conj H401 (conj Hcalls (Hheap H401))).
Defined.

(** C4 as stated fails on two requests with an expired principal.  When
    a demo session is present as well, a principal without a refresh
    token does not stop the request: it proceeds with the demo payload.
    And a principal whose [expires_at] is 0 is answered 401 although it
    holds a refresh token and the refresh attempt would succeed; no
    refresh call is made. *)
Lemma expired_principal_not_iff :
  (let p := Scenario.principal_obj (VNum 1699999000) VUndef in
   let w := Scenario.world_of p (VRef 5%positive) in
   principal w Scenario.request 1%positive p
   /\ now Scenario.hosted > 1699999000
   /\ truthy (field p "refresh_token") = false
   /\ isAuthenticated Scenario.hosted Scenario.request w
      = (Ok (Next (set_req_user Scenario.request (VRef 5%positive))), w))
  /\
  (let p := Scenario.principal_obj (VNum 0) (VStr "rt1") in
   let w := Scenario.world_of p VUndef in
   principal w Scenario.request 1%positive p
   /\ now Scenario.hosted > 0
   /\ truthy (field p "refresh_token") = true
   /\ refresh_attempt Scenario.hosted (trace w) (field p "refresh_token")
      = inr Scenario.tokens0
   /\ isAuthenticated Scenario.hosted Scenario.request w
      = (Ok (Reply 401 (BMessage "Unauthorized")), w)).
Proof.
  split; cbv zeta; repeat split; try reflexivity; by vm_compute.
Qed.

(** *** C10: the frame of [updateUserSession] *)

Lemma overwritten_frame o c tokens k :
  k ∉ token_fields -> overwritten o c tokens !! k = o !! k.
Proof.
  intros Hk. unfold overwritten, token_fields in *.
  rewrite !lookup_insert_ne; [done | | | |];
    intros <-; apply Hk; set_solver.
Qed.

Lemma refreshed_frame (h : gmap loc (gmap string val)) l o tokens l' o1 :
  l' ≠ l -> h !! l' = Some o1 -> refreshed h l o tokens !! l' = Some o1.
Proof.
  intros Hne Hl'. unfold refreshed.
  rewrite lookup_insert_ne by done. by apply with_claims_lookup.
Qed.

(** C10. On a principal object [o], [updateUserSession] succeeds and
    assigns [claims], [access_token], [refresh_token] and [expires_at]
    from the token response, whatever they held before; every other
    property of [o], every other object of the heap, the store, the
    registry and the trace are unchanged.  In particular a response
    without a refresh token leaves [refresh_token] undefined, and a
    later check of that principal, once the new expiry has passed and
    with no demo session, answers 401. *)
Theorem updateUserSession_frame l o tokens w :
  heap w !! l = Some o ->
  let c := claims_value (heap w) tokens in
  let o' := overwritten o c tokens in
  exists w',
    updateUserSession (VRef l) tokens w = (Ok tt, w')
    /\ heap w' !! l = Some o'
    /\ field o' "claims" = c
    /\ field o' "access_token" = tok_access_token tokens
    /\ field o' "refresh_token" = tok_refresh_token tokens
    /\ field o' "expires_at" = claims_exp tokens
    /\ (forall k, k ∉ token_fields -> o' !! k = o !! k)
    /\ (forall l' o1, l' ≠ l -> heap w !! l' = Some o1 -> heap w' !! l' = Some o1)
    /\ store w' = store w
    /\ strategies w' = strategies w
    /\ trace w' = trace w
    /\ (tok_refresh_token tokens = VUndef ->
        forall env req,
          req_user req = VRef l ->
          truthy (demo_payload w' req) = false ->
          num_le (to_number_ext env) (now env) (claims_exp tokens) = false ->
          isAuthenticated env req w'
          = (Ok (Reply 401 (BMessage "Unauthorized")), w')).
Proof.
  intros Hl c o'. eexists. split; [by apply updateUserSession_run |].
  assert (Hl' : refreshed (heap w) l o tokens !! l = Some o')
    by (unfold refreshed; by rewrite lookup_insert_eq).
  assert (Hrt : field o' "refresh_token" = tok_refresh_token tokens).
  { subst o'. unfold overwritten.
    rewrite field_insert_ne by discriminate. apply field_insert_eq. }
  assert (Hexp : field o' "expires_at" = claims_exp tokens).
  { subst o'. unfold overwritten. apply field_insert_eq. }
  split; [exact Hl' |].
  split. { subst o'. unfold overwritten.
           rewrite !field_insert_ne by discriminate. apply field_insert_eq. }
  split. { subst o'. unfold overwritten.
           rewrite !field_insert_ne by discriminate. apply field_insert_eq. }
  split; [exact Hrt |]. split; [exact Hexp |].
  split; [intros k Hk; by apply overwritten_frame |].
  split; [intros l' o1 Hne H1; simpl; by apply refreshed_frame |].
  do 3 (split; [reflexivity |]).
  intros Hnone env req Hu Hd Hpast.
  destruct (truthy (isReplitEnvironment env)) eqn:Hon; cycle 1.
  { by apply check_disabled. }
  rewrite (federated_branch env req _ l o' Hd Hon (conj Hu Hl')).
  rewrite Hexp, Hpast, Hrt, Hnone. simpl.
  by destruct (negb (req_isAuthenticated req) || negb (truthy (claims_exp tokens))).
Qed.

Lemma updateUserSession_frame_witness :
  let p := <["locale" := VStr "ru"]>
             (Scenario.principal_obj (VNum 1699999000) (VStr "rt1")) in
  let w := Scenario.world_of p VUndef in
  exists w',
    updateUserSession (VRef 1%positive) Scenario.tokens_without_refresh w
    = (Ok tt, w')
    /\ (exists o', heap w' !! 1%positive = Some o'
                   /\ field o' "refresh_token" = VUndef
                   /\ field o' "expires_at" = VNum 1700003600
                   /\ o' !! "locale" = Some (VStr "ru"))
    /\ isAuthenticated Scenario.later Scenario.request w'
       = (Ok (Reply 401 (BMessage "Unauthorized")), w').
Proof.
  intros p w.
  destruct (updateUserSession_frame 1%positive p
              Scenario.tokens_without_refresh w eq_refl)
    as (w' & Hrun & Hl & _ & _ & Hrt & Hexp & Hframe & _ & _ & _ & _ & Hlater).
  exists w'. split; [exact Hrun |]. split.
  - eexists. split; [exact Hl |]. split; [exact Hrt |]. split; [exact Hexp |].
    rewrite Hframe; [reflexivity |].
    unfold token_fields. rewrite !not_elem_of_cons.
    repeat split; try discriminate. apply not_elem_of_nil.
  - assert (Hw : w' = (updateUserSession (VRef 1%positive)
                         Scenario.tokens_without_refresh w).2)
      by (by rewrite Hrun).
    apply Hlater.
    + reflexivity.
    + reflexivity.
    + rewrite Hw. by vm_compute.
    + by vm_compute.
Defined.

(** *** C5: the demo login endpoint *)

Lemma validateCredentials_run env email password w :
  storage_validateCredentials env email password w
  = let r := validateCredentials env (trace w) email password in
    let w1 := set_trace (EvValidateCredentials email password r :: trace w) w in
    match r with
    | inl err => (Throw err, w1)
    | inr f => materialise f w1
    end.
Proof.
  unfold storage_validateCredentials, mbind, M_bind, bind, history, emit, settle.
  simpl. by destruct (validateCredentials env (trace w) email password).
Qed.

Lemma login_attempt_body env req w lb b :
  req_body req = VRef lb ->
  heap w !! lb = Some b ->
  login_attempt env req w
  = if negb (truthy (field b "email")) || negb (truthy (field b "password"))
    then (Ok (Reply 400 (BMessage "Email и пароль обязательны")), w)
    else
      (user ← storage_validateCredentials env (field b "email") (field b "password");
       if negb (truthy user) then
         mret (Reply 401 (BMessage "Неверный email или пароль"))
       else
         set_prop (req_session req) "user" user;;
         mret (Reply 200 (BUserMessage user "Успешный вход в систему"))) w.
Proof.
  intros Hb Hl. unfold login_attempt. rewrite Hb.
  rewrite (bind_ok _ _ _ _ _ (get_prop_ref lb b _ w Hl)).
  rewrite (bind_ok _ _ _ _ _ (get_prop_ref lb b _ w Hl)).
  by destruct (negb _ || negb _).
Qed.

(** C5. For a body object: a falsy [email] or [password] (missing, or
    the empty string) is answered 400 before the validator is asked; a
    validator that returns no user is answered 401; a validator that
    returns a user is answered 200 with that user, and the session
    object then holds it under the key [user].  Whatever the [try]
    block throws (the validator failing is one case) is answered 500
    with a fixed message that does not depend on the exception, which
    only goes to the log; the handler itself never throws. *)
Theorem login_post_contract env req w :
  (forall lb b,
      req_body req = VRef lb ->
      heap w !! lb = Some b ->
      let email := field b "email" in
      let password := field b "password" in
      let r := validateCredentials env (trace w) email password in
      let w1 := set_trace (EvValidateCredentials email password r :: trace w) w in
      (truthy email = false \/ truthy password = false ->
       login_post env req w
       = (Ok (Reply 400 (BMessage "Email и пароль обязательны")), w))
      /\ (truthy email = true -> truthy password = true ->
          (forall f user w2,
              r = inr f ->
              materialise f w1 = (Ok user, w2) ->
              truthy user = false ->
              login_post env req w
              = (Ok (Reply 401 (BMessage "Неверный email или пароль")), w2))
          /\ (forall f user w2 ls s,
                 r = inr f ->
                 materialise f w1 = (Ok user, w2) ->
                 truthy user = true ->
                 req_session req = VRef ls ->
                 heap w2 !! ls = Some s ->
                 exists w',
                   login_post env req w
                   = (Ok (Reply 200 (BUserMessage user "Успешный вход в систему")), w')
                   /\ heap w' = <[ls := <["user" := user]> s]> (heap w2)
                   /\ demo_payload w' req = user)
          /\ (forall err,
                 r = inl err ->
                 login_attempt env req w = (Throw err, w1))))
  /\ (forall err w1,
         login_attempt env req w = (Throw err, w1) ->
         login_post env req w
         = (Ok (Reply 500 (BMessage "Ошибка входа в систему")),
            set_trace (EvConsoleError "Login error:" err :: trace w1) w1))
  /\ (exists status body w', login_post env req w = (Ok (Reply status body), w')).
Proof.
  split; [| split].
  - intros lb b Hb Hl email password r w1.
    pose proof (login_attempt_body env req w lb b Hb Hl) as Hrun.
    fold email password in Hrun. split.
    + intros Hmiss. unfold login_post, try_catch. rewrite Hrun.
      by destruct Hmiss as [-> | ->]; [| rewrite orb_true_r].
    + intros He Hp. rewrite He, Hp in Hrun. simpl in Hrun.
      unfold mbind, M_bind, bind in Hrun.
      rewrite validateCredentials_run in Hrun. fold r w1 in Hrun. cbv zeta in Hrun.
      split; [| split].
      * intros f user w2 Hr Hm Hf. rewrite Hr in Hrun. cbv iota in Hrun.
        unfold w1 in Hm. rewrite Hr in Hm. rewrite Hm, Hf in Hrun.
        unfold login_post, try_catch. by rewrite Hrun.
      * intros f user w2 ls s Hr Hm Ht Hs Hls. rewrite Hr in Hrun.
        cbv iota in Hrun. unfold w1 in Hm. rewrite Hr in Hm.
        rewrite Hm, Ht, Hs in Hrun.
        change (negb true) with false in Hrun. cbv beta iota in Hrun.
        rewrite (set_prop_ref ls s _ _ w2 Hls) in Hrun.
        eexists. unfold login_post, try_catch. rewrite Hrun.
        split; [reflexivity |]. split; [reflexivity |].
        unfold demo_payload. rewrite Hs. simpl.
        rewrite lookup_insert_eq. apply field_insert_eq.
      * intros err Hr. unfold w1. rewrite Hr in Hrun |- *. exact Hrun.
  - intros err w1 Hrun. unfold login_post, try_catch. by rewrite Hrun.
  - unfold login_post, try_catch.
    destruct (login_attempt env req w) as [[out|err] w1] eqn:Hrun.
    + destruct out as [r|status body]; [| by eauto].
      exfalso. revert Hrun. unfold login_attempt, mbind, M_bind, bind.
      repeat (match goal with
              | |- context [match ?m ?x with _ => _ end] =>
                  destruct (m x) as [[?|?] ?]
              | |- context [if ?c then _ else _] => destruct c
              end; try discriminate).
    + by eauto.
Qed.

Lemma login_post_contract_witness :
  let w := Scenario.world_of (Scenario.principal_obj (VNum 5) VUndef) VUndef in
  let w400 := Scenario.with_body (VStr EmptyString) (VStr "x") w in
  let w401 := Scenario.with_body (VStr "who@example.com") (VStr "x") w in
  let w500 := Scenario.with_body (VStr "down@example.com") (VStr "x") w in
  login_post Scenario.hosted Scenario.request w400
  = (Ok (Reply 400 (BMessage "Email и пароль обязательны")), w400)
  /\ (login_post Scenario.hosted Scenario.request w401).1
     = Ok (Reply 401 (BMessage "Неверный email или пароль"))
  /\ (exists user w',
        login_post Scenario.hosted Scenario.request w
        = (Ok (Reply 200 (BUserMessage user "Успешный вход в систему")), w')
        /\ demo_payload w' Scenario.request = user
        /\ truthy user = true)
  /\ (login_post Scenario.hosted Scenario.request w500).1
     = Ok (Reply 500 (BMessage "Ошибка входа в систему")).
Proof.
  intros w w400 w401 w500.
  split; [| split; [| split]].
  - destruct (login_post_contract Scenario.hosted Scenario.request w400)
      as [Hbody _].
    destruct (Hbody 6%positive _ eq_refl eq_refl) as [H400 _].
    apply H400. left. reflexivity.
  - destruct (login_post_contract Scenario.hosted Scenario.request w401)
      as [Hbody _].
    destruct (Hbody 6%positive _ eq_refl eq_refl) as [_ Hrest].
    destruct (Hrest eq_refl eq_refl) as [H401 _].
    erewrite (H401 (Existing VUndef) VUndef); reflexivity.
  - destruct (login_post_contract Scenario.hosted Scenario.request w)
      as [Hbody _].
    destruct (Hbody 6%positive _ eq_refl eq_refl) as [_ Hrest].
    destruct (Hrest eq_refl eq_refl) as [_ [H200 _]].
    destruct (H200 (NewObject Scenario.demo_user) _ _ 2%positive _
                eq_refl eq_refl eq_refl eq_refl eq_refl)
      as (w' & Hrun & _ & Hdemo).
    eexists _, w'. split; [exact Hrun |]. split; [exact Hdemo | reflexivity].
  - destruct (login_post_contract Scenario.hosted Scenario.request w500)
      as [Hbody [H500 _]].
    destruct (Hbody 6%positive _ eq_refl eq_refl) as [_ Hrest].
    destruct (Hrest eq_refl eq_refl) as [_ [_ Hthrow]].
    rewrite (H500 _ _ (Hthrow _ eq_refl)). reflexivity.
Defined.

(** *** C7: the demo logout endpoint *)

Lemma logout_post_run env req w ls :
  req_session req = VRef ls ->
  logout_post env req w
  = let sid := req_sessionID req in
    let verdict := sessionStore_destroy env (trace w) sid in
    let w1 := set_trace (EvStoreDestroy sid verdict :: trace w) w in
    match verdict with
    | Some _ => (Ok (Reply 500 (BMessage "Ошибка выхода из системы")), w1)
    | None =>
        (Ok (Reply 200 (BMessage "Успешный выход из системы")),
         set_store (delete sid (store w)) w1)
    end.
Proof.
  intros Hs. unfold logout_post, session_destroy. rewrite Hs.
  unfold mbind, M_bind, bind, history, emit. simpl.
  by destruct (sessionStore_destroy env (trace w) (req_sessionID req)).
Qed.

Lemma session_middleware_new env sid w :
  store w !! sid = None ->
  session_middleware env sid w
  = (Ok (VRef (fresh (dom (heap w))), generateSessionId env (trace w)),
     set_heap (<[fresh (dom (heap w)) := ∅]> (heap w)) w).
Proof. intros H. unfold session_middleware. by rewrite H. Qed.

Lemma passport_session_empty l w :
  heap w !! l = Some ∅ ->
  passport_session (VRef l) w = (Ok (VUndef, false), w).
Proof.
  intros H. unfold passport_session. cbv beta iota delta [truthy negb].
  rewrite (bind_ok _ _ _ _ _ (get_prop_ref l ∅ "passport" w H)). reflexivity.
Qed.

Lemma incoming_new env sid body hostname w :
  store w !! sid = None ->
  incoming env sid body hostname w
  = (Ok {| req_session := VRef (fresh (dom (heap w)));
           req_sessionID := generateSessionId env (trace w);
           req_user := VUndef;
           req_isAuthenticated := false;
           req_body := body;
           req_hostname := hostname |},
     set_heap (<[fresh (dom (heap w)) := ∅]> (heap w)) w).
Proof.
  intros Hnone. unfold incoming.
  rewrite (bind_ok _ _ _ _ _ (session_middleware_new env sid w Hnone)).
  rewrite (bind_ok _ _ _ _ _
             (passport_session_empty (fresh (dom (heap w)))
                (set_heap (<[fresh (dom (heap w)) := ∅]> (heap w)) w)
                (lookup_insert_eq _ _ _))).
  reflexivity.
Qed.

(** A request whose cookie names no stored session is anonymous. *)
Lemma unknown_session_unauthorized env sid body hostname w :
  store w !! sid = None ->
  exists w',
    serve_auth_user env sid body hostname w
    = (Ok (Reply 401 (BMessage "Unauthorized")), w').
Proof.
  intros Hnone. eexists. unfold serve_auth_user.
  rewrite (bind_ok _ _ _ _ _ (incoming_new env sid body hostname w Hnone)).
  unfold auth_user. simpl req_session.
  assert (Hu : opt_prop (VRef (fresh (dom (heap w)))) "user"
                 (set_heap (<[fresh (dom (heap w)) := ∅]> (heap w)) w)
               = (Ok VUndef, set_heap (<[fresh (dom (heap w)) := ∅]> (heap w)) w))
    by exact (get_prop_ref _ ∅ "user"
                (set_heap (<[fresh (dom (heap w)) := ∅]> (heap w)) w)
                (lookup_insert_eq _ _ _)).
  rewrite (bind_ok _ _ _ _ _ Hu). reflexivity.
Qed.

(** C7, as amended. On a request that has a session, [POST /api/logout]
    asks the store to destroy the entry; a store error is answered 500
    and leaves the store as it was, otherwise the entry is gone, the
    answer is 200 with the success message, and a following
    [GET /api/auth/user] with the same session cookie is answered 401. *)
Theorem logout_post_contract env req w ls :
  req_session req = VRef ls ->
  let sid := req_sessionID req in
  let verdict := sessionStore_destroy env (trace w) sid in
  let w1 := set_trace (EvStoreDestroy sid verdict :: trace w) w in
  (forall err,
      verdict = Some err ->
      logout_post env req w
      = (Ok (Reply 500 (BMessage "Ошибка выхода из системы")), w1))
  /\ (verdict = None ->
      exists w2,
        logout_post env req w
        = (Ok (Reply 200 (BMessage "Успешный выход из системы")), w2)
        /\ store w2 = delete sid (store w)
        /\ forall env' body hostname,
             exists w3,
               serve_auth_user env' sid body hostname w2
               = (Ok (Reply 401 (BMessage "Unauthorized")), w3)).
Proof.
  intros Hs sid verdict w1.
  pose proof (logout_post_run env req w ls Hs) as Hrun.
  cbv zeta in Hrun. fold sid in Hrun. fold verdict in Hrun. fold w1 in Hrun.
  clearbody w1 verdict. split.
  - intros err Hv. rewrite Hv in Hrun. exact Hrun.
  - intros Hv. rewrite Hv in Hrun. eexists. split; [exact Hrun |].
    split; [reflexivity |]. intros env' body hostname.
    apply unknown_session_unauthorized. simpl. apply lookup_delete_eq.
Qed.

Lemma logout_post_contract_witness :
  let w := Scenario.world_of (Scenario.principal_obj (VNum 5) VUndef)
             (VRef 5%positive) in
  (exists u, (serve_auth_user Scenario.hosted "s1" VUndef "a.example" w).1
             = Ok (Reply 200 (BJson u)))
  /\ exists w2,
      logout_post Scenario.hosted Scenario.request w
      = (Ok (Reply 200 (BMessage "Успешный выход из системы")), w2)
      /\ store w2 !! "s1" = None
      /\ exists w3,
          serve_auth_user Scenario.hosted "s1" VUndef "a.example" w2
          = (Ok (Reply 401 (BMessage "Unauthorized")), w3).
Proof.
  intros w. split; [by eexists |].
  destruct (logout_post_contract Scenario.hosted Scenario.request w
              2%positive eq_refl) as [_ Hok].
  destruct (Hok eq_refl) as (w2 & Hrun & Hstore & Hnext).
  exists w2. split; [exact Hrun |]. split.
  - rewrite Hstore. apply lookup_delete_eq.
  - apply Hnext.
Defined.

(** C7 as stated fails when the store reports an error: the answer is
    500, the entry is still in the store, and a following
    [GET /api/auth/user] with the same cookie is answered 200 with the
    demo user, not 401. *)
Lemma logout_error_keeps_session :
  let w := Scenario.world_of (Scenario.principal_obj (VNum 5) VUndef)
             (VRef 5%positive) in
  let after := (logout_post Scenario.failing_store Scenario.request w).2 in
  (logout_post Scenario.failing_store Scenario.request w).1
  = Ok (Reply 500 (BMessage "Ошибка выхода из системы"))
  /\ store after !! "s1" = Some (VRef 2%positive)
  /\ serve_auth_user Scenario.failing_store "s1" VUndef "a.example" after
     = (Ok (Reply 200 (BJson (VRef 5%positive))), after)
  /\ heap after !! 5%positive = Some Scenario.demo_user.
Proof. cbv zeta. repeat split; by vm_compute. Qed.

(** *** C8: one strategy per allowed hostname *)

Lemma strategy_name_inj d1 d2 : strategy_name d1 = strategy_name d2 -> d1 = d2.
Proof. unfold strategy_name. simpl. intros H. by simplify_eq. Qed.

Lemma length_app_string a b :
  String.length (a +:+ b) = (String.length a + String.length b)%nat.
Proof. induction a as [|c a IH]; simpl; [done | by rewrite IH]. Qed.

Lemma substring_app_string d r : substring 0 (String.length d) (d +:+ r) = d.
Proof. induction d as [|c d IH]; simpl; [by destruct r | by rewrite IH]. Qed.

(** The callback URL of a plain host parses to itself. *)
Lemma new_URL_plain env d :
  plain_host d = true -> new_URL env (callback_url d) = inr (callback_url d).
Proof.
  intros Hd. unfold new_URL, plain_callback.
  assert (Hh : substring 8 (String.length (callback_url d) - 21) (callback_url d)
               = d).
  { unfold callback_url. rewrite !length_app_string. simpl String.length.
    replace (8 + (String.length d + 13) - 21)%nat with (String.length d) by lia.
    change (substring 8 (String.length d) ("https://" +:+ d +:+ "/api/callback"))
      with (substring 0 (String.length d) (d +:+ "/api/callback")).
    apply substring_app_string. }
  cbv zeta. rewrite Hh, Hd, String.eqb_refl. reflexivity.
Qed.

Lemma new_Strategy_inv env cfg d s :
  new_Strategy env cfg d = inr s ->
  name s = strategy_name d /\ config s = cfg
  /\ new_URL env (callback_url d) = inr (callbackURL s).
Proof.
  unfold new_Strategy. destruct (new_URL env (callback_url d)) as [e|u];
    [discriminate |]. by intros [= <-].
Qed.

Lemma new_Strategy_parsed env cfg d u :
  new_URL env (callback_url d) = inr u ->
  exists s, new_Strategy env cfg d = inr s.
Proof. intros H. unfold new_Strategy. rewrite H. by eexists. Qed.

Lemma new_Strategy_failed env cfg d e :
  new_URL env (callback_url d) = inl e -> new_Strategy env cfg d = inl e.
Proof. intros H. unfold new_Strategy. by rewrite H. Qed.

(** The loop registers up to the first construction that throws. *)
Lemma for_of_passport_use env cfg ds w :
  for_of ds
    (fun domain =>
       strategy ← settle (new_Strategy env cfg domain); passport_use strategy) w
  = (match loop_failure env cfg ds with
     | None => Ok tt
     | Some e => Throw e
     end,
     set_strategies (registered env cfg ds (strategies w)) w).
Proof.
  revert w. induction ds as [|d ds IH]; intros w.
  - by destruct w.
  - simpl. unfold mbind at 1 2, M_bind at 1 2, bind at 1 2.
    destruct (new_Strategy env cfg d) as [e|s]; simpl.
    + by destruct w.
    + unfold passport_use at 1. rewrite IH. reflexivity.
Qed.

Lemma registered_other env cfg ds reg n :
  (forall d, d ∈ registrable env ds -> strategy_name d ≠ n) ->
  registered env cfg ds reg !! n = reg !! n.
Proof.
  revert reg. induction ds as [|d ds IH]; intros reg Hn; [done |].
  simpl in *. destruct (new_URL env (callback_url d)) as [e|u] eqn:Hu.
  - by rewrite (new_Strategy_failed env cfg d e Hu).
  - destruct (new_Strategy_parsed env cfg d u Hu) as [s Hs]. rewrite Hs.
    destruct (new_Strategy_inv env cfg d s Hs) as (Hname & _ & _).
    rewrite IH.
    + rewrite Hname. apply lookup_insert_ne, Hn. left.
    + intros d' Hd'. apply Hn. by right.
Qed.

Lemma registered_domain env cfg ds reg d :
  d ∈ registrable env ds ->
  exists s,
    new_Strategy env cfg d = inr s
    /\ registered env cfg ds reg !! strategy_name d = Some s.
Proof.
  revert reg. induction ds as [|d0 ds IH]; intros reg Hd.
  - by apply elem_of_nil in Hd.
  - simpl in *. destruct (new_URL env (callback_url d0)) as [e|u] eqn:Hu;
      [by apply elem_of_nil in Hd |].
    destruct (new_Strategy_parsed env cfg d0 u Hu) as [s0 Hs0]. rewrite Hs0.
    destruct (decide (d ∈ registrable env ds)) as [Hin | Hout].
    + by apply IH.
    + apply elem_of_cons in Hd as [-> | Hin]; [| done].
      exists s0. split; [done |].
      destruct (new_Strategy_inv env cfg d0 s0 Hs0) as (Hname & _ & _).
      rewrite registered_other; [rewrite Hname; apply lookup_insert_eq |].
      intros d' Hd' Heq. apply strategy_name_inj in Heq. by subst.
Qed.

Lemma registered_only env cfg ds reg n s :
  registered env cfg ds reg !! n = Some s ->
  (exists d, d ∈ registrable env ds /\ n = strategy_name d
             /\ new_Strategy env cfg d = inr s)
  \/ reg !! n = Some s.
Proof.
  revert reg. induction ds as [|d ds IH]; intros reg H; [by right |].
  simpl in *. destruct (new_URL env (callback_url d)) as [e|u] eqn:Hu.
  - rewrite (new_Strategy_failed env cfg d e Hu) in H. by right.
  - destruct (new_Strategy_parsed env cfg d u Hu) as [s0 Hs0].
    rewrite Hs0 in H.
    destruct (new_Strategy_inv env cfg d s0 Hs0) as (Hname & _ & _).
    apply IH in H as [(d' & Hd' & -> & Hs') | H].
    + left. exists d'. split; [by right | done].
    + rewrite Hname in H.
      destruct (decide (strategy_name d = n)) as [<- | Hne].
      * rewrite lookup_insert_eq in H. injection H as <-.
        left. exists d. split; [left | done].
      * rewrite lookup_insert_ne in H by done. by right.
Qed.

(** When every callback URL parses the loop reaches every domain. *)
Lemma registrable_all env ds :
  Forall (fun d => exists url, new_URL env (callback_url d) = inr url) ds ->
  registrable env ds = ds.
Proof.
  induction 1 as [|d ds [u Hu] _ IH]; simpl; [done |]. by rewrite Hu, IH.
Qed.

Lemma loop_completes env cfg ds :
  Forall (fun d => exists url, new_URL env (callback_url d) = inr url) ds ->
  loop_failure env cfg ds = None.
Proof.
  induction 1 as [|d ds [u Hu] _ IH]; simpl; [done |].
  destruct (new_Strategy_parsed env cfg d u Hu) as [s ->]. exact IH.
Qed.

Lemma getOidcConfig_ok env w cfg :
  truthy (isReplitEnvironment env) = true ->
  discovery env (trace w) (default "https://replit.com/oidc" (ISSUER_URL env))
    (default EmptyString (REPL_ID env)) = inr cfg ->
  getOidcConfig env w
  = (Ok cfg,
     set_trace (EvDiscovery (default "https://replit.com/oidc" (ISSUER_URL env))
                  (default EmptyString (REPL_ID env)) (inr cfg) :: trace w) w).
Proof.
  intros Hon Hcfg. unfold getOidcConfig. rewrite Hon. simpl.
  unfold mbind, M_bind, bind, history, emit, settle. simpl. by rewrite Hcfg.
Qed.

(** C8, as amended. When the federated path is enabled, discovery
    succeeds with [cfg] and the callback URL
    [https://{domain}/api/callback] of every domain of the
    comma-separated list parses, [setupAuth] leaves in the registry,
    for every domain of the list, the strategy named after it, whose
    callback URL is the parsed [https://{domain}/api/callback] (that
    very string for a host of plain lower-case labels); nothing else is
    added to the registry, and distinct domains have distinct strategy
    names. *)
Theorem setupAuth_registers env w cfg :
  truthy (isReplitEnvironment env) = true ->
  discovery env (trace w) (default "https://replit.com/oidc" (ISSUER_URL env))
    (default EmptyString (REPL_ID env)) = inr cfg ->
  Forall (fun d => exists url,
              new_URL env ("https://" +:+ d +:+ "/api/callback") = inr url)
    (split "," (replit_domains env)) ->
  exists w',
    setupAuth env w = (Ok tt, w')
    /\ (forall d,
          d ∈ split "," (replit_domains env) ->
          exists s,
            strategies w' !! ("replitauth:" +:+ d) = Some s
            /\ name s = "replitauth:" +:+ d
            /\ new_URL env ("https://" +:+ d +:+ "/api/callback")
               = inr (callbackURL s)
            /\ (plain_host d = true ->
                callbackURL s = "https://" +:+ d +:+ "/api/callback")
            /\ config s = cfg)
    /\ (forall n s,
          strategies w' !! n = Some s ->
          (exists d, d ∈ split "," (replit_domains env)
                     /\ n = "replitauth:" +:+ d
                     /\ new_Strategy env cfg d = inr s)
          \/ strategies w !! n = Some s)
    /\ (forall d1 d2 : string,
          "replitauth:" +:+ d1 = "replitauth:" +:+ d2 -> d1 = d2)
    /\ heap w' = heap w /\ store w' = store w.
Proof.
  intros Hon Hcfg Hall. eexists. split.
  - unfold setupAuth, try_catch. rewrite Hon.
    rewrite (bind_ok _ _ _ _ _ (getOidcConfig_ok env w cfg Hon Hcfg)).
    rewrite for_of_passport_use, (loop_completes env cfg _ Hall). reflexivity.
  - simpl. split; [| split; [| split; [| done]]].
    + intros d Hd.
      destruct (registered_domain env cfg (split "," (replit_domains env))
                  (strategies w) d) as (s & Hs & Hreg).
      { by rewrite (registrable_all env _ Hall). }
      destruct (new_Strategy_inv env cfg d s Hs) as (Hname & Hc & Hurl).
      exists s. split; [exact Hreg |]. split; [exact Hname |].
      split; [exact Hurl |]. split; [| exact Hc].
      intros Hplain. rewrite (new_URL_plain env d Hplain) in Hurl.
      by injection Hurl as <-.
    + intros n s Hn. apply registered_only in Hn as [(d & Hd & -> & Hs) | Hn].
      * left. exists d. rewrite (registrable_all env _ Hall) in Hd. done.
      * by right.
    + apply strategy_name_inj.
Qed.

Lemma setupAuth_registers_witness :
  exists w',
    setupAuth Scenario.hosted Scenario.startup = (Ok tt, w')
    /\ split "," (replit_domains Scenario.hosted) = ["a.example"; "b.example"]
    /\ (callbackURL <$> strategies w' !! "replitauth:a.example")
       = Some "https://a.example/api/callback"
    /\ (callbackURL <$> strategies w' !! "replitauth:b.example")
       = Some "https://b.example/api/callback"
    /\ strategies w' !! "replitauth:c.example" = None.
Proof.
  destruct (setupAuth_registers Scenario.hosted Scenario.startup
              {| cfg_issuer := "https://replit.com/oidc";
                 cfg_client_id := "repl-1"; cfg_metadata := "metadata" |}
              eq_refl eq_refl)
    as (w' & Hrun & Hall & Honly & _ & _).
  { repeat constructor; by eexists. }
  exists w'. split; [exact Hrun |]. split; [reflexivity |].
  split; [| split].
  - destruct (Hall "a.example") as (s & Hs & _ & _ & Hcb & _);
      [apply list_elem_of_here |].
    change ("replitauth:" +:+ "a.example") with "replitauth:a.example" in Hs.
    rewrite Hs. simpl. by rewrite (Hcb eq_refl).
  - destruct (Hall "b.example") as (s & Hs & _ & _ & Hcb & _);
      [apply list_elem_of_further, list_elem_of_here |].
    change ("replitauth:" +:+ "b.example") with "replitauth:b.example" in Hs.
    rewrite Hs. simpl. by rewrite (Hcb eq_refl).
  - destruct (strategies w' !! "replitauth:c.example") as [s|] eqn:Hs;
      [| reflexivity].
    apply Honly in Hs as [(d & Hd & Hn & _) | Hs]; [| discriminate].
    apply strategy_name_inj in Hn. subst d.
    apply elem_of_cons in Hd as [Hd | Hd]; [discriminate |].
    apply elem_of_cons in Hd as [Hd | Hd]; [discriminate |].
    by apply elem_of_nil in Hd.
Defined.

(** C8 as stated fails in three ways: on a demo-only deployment and on
    a hosted one whose provider cannot be discovered, the list of
    allowed hostnames is not empty, yet [setupAuth] registers no
    strategy at all; and when a piece of the list is padded with a
    blank, its callback URL does not parse, the constructor throws, the
    error is caught and the loop ends, so that piece and every piece
    after it have no strategy. *)
Lemma setupAuth_registers_nothing :
  ("a.example" ∈ split "," (replit_domains Scenario.demo_only)
   /\ (setupAuth Scenario.demo_only Scenario.startup).1 = Ok tt
   /\ strategies (setupAuth Scenario.demo_only Scenario.startup).2 = ∅)
  /\
  ("a.example" ∈ split "," (replit_domains Scenario.undiscoverable)
   /\ truthy (isReplitEnvironment Scenario.undiscoverable) = true
   /\ (setupAuth Scenario.undiscoverable Scenario.startup).1 = Ok tt
   /\ strategies (setupAuth Scenario.undiscoverable Scenario.startup).2 = ∅)
  /\
  (split "," (replit_domains Cases.padded)
   = ["a.example"; " b.example"; "c.example"]
   /\ truthy (isReplitEnvironment Cases.padded) = true
   /\ (exists cfg, discovery Cases.padded [] "https://replit.com/oidc" "repl-1"
                   = inr cfg)
   /\ new_URL Cases.padded "https:// b.example/api/callback"
      = inl (TypeError "Invalid URL")
   /\ (setupAuth Cases.padded Scenario.startup).1 = Ok tt
   /\ is_Some (strategies (setupAuth Cases.padded Scenario.startup).2
               !! "replitauth:a.example")
   /\ strategies (setupAuth Cases.padded Scenario.startup).2
      !! "replitauth: b.example" = None
   /\ strategies (setupAuth Cases.padded Scenario.startup).2
      !! "replitauth:c.example" = None).
Proof.
  split; [| split].
  - split; [apply list_elem_of_here |]. split; by vm_compute.
  - split; [apply list_elem_of_here |]. split; [by vm_compute |].
    split; by vm_compute.
  - split; [reflexivity |]. split; [reflexivity |].
    split; [by eexists |]. split; [reflexivity |].
    split; [by vm_compute |]. split; [vm_compute; by eexists |].
    split; by vm_compute.
Qed.

(** *** End to end *)

(** A demo login followed by a protected request on the same session:
    the check proceeds with the user the validator returned, on a
    demo-only deployment as well. *)
Example login_then_check :
  let w := Scenario.world_of (Scenario.principal_obj (VNum 5) VUndef) VUndef in
  let after := (login_post Scenario.demo_only Scenario.request w).2 in
  exists user,
    (login_post Scenario.demo_only Scenario.request w).1
    = Ok (Reply 200 (BUserMessage user "Успешный вход в систему"))
    /\ heap after !! 7%positive = Some Scenario.demo_user
    /\ user = VRef 7%positive
    /\ isAuthenticated Scenario.demo_only Scenario.request after
       = (Ok (Next (set_req_user Scenario.request user)), after).
Proof. cbv zeta. eexists. repeat split; by vm_compute. Qed.

(** An expired principal is refreshed in place: the session still leads
    to the same object, which now carries the new tokens. *)
Example refresh_in_place :
  let p := Scenario.principal_obj (VNum 1699999000) (VStr "rt1") in
  let w := Scenario.world_of p VUndef in
  let after := (isAuthenticated Scenario.hosted Scenario.request w).2 in
  ((fun o => field o "user") <$> heap after !! 3%positive) = Some (VRef 1%positive)
  /\ ((fun o => field o "access_token") <$> heap after !! 1%positive)
     = Some (VStr "at2")
  /\ ((fun o => field o "refresh_token") <$> heap after !! 1%positive)
     = Some (VStr "rt2")
  /\ ((fun o => field o "expires_at") <$> heap after !! 1%positive)
     = Some (VNum 1700003600)
  /\ refresh_calls (trace after) = 1%nat.
Proof. cbv zeta. repeat split; by vm_compute. Qed.

(** ** Further properties *)

(** *** The check, path by path *)

Lemma user_field_principal w req l o k :
  principal w req l o -> user_field w req k = field o k.
Proof. intros [Hu Hl]. unfold user_field. by rewrite Hu, Hl. Qed.

Lemma principal_not_nullish w req l o :
  principal w req l o -> nullish (req_user req) = false.
Proof. intros [Hu _]. by rewrite Hu. Qed.

Lemma principal_or_not w req :
  (exists l o, principal w req l o) \/ (forall l o, ~ principal w req l o).
Proof.
  unfold principal. destruct (req_user req) as [| | | | |l];
    try (right; intros l' o' [? _]; discriminate).
  destruct (heap w !! l) as [o|] eqn:Hl.
  - left. by exists l, o.
  - right. intros l' o' [[= <-] Hl']. congruence.
Qed.

(** Without a principal object the federated branch stops at its guard. *)
Lemma federated_no_principal env req w :
  truthy (demo_payload w req) = false ->
  truthy (isReplitEnvironment env) = true ->
  (forall l o, ~ principal w req l o) ->
  isAuthenticated env req w
  = if negb (req_isAuthenticated req) then (Ok unauthorized, w)
    else if nullish (req_user req) then (Throw (TypeError "expires_at"), w)
    else (Ok unauthorized, w).
Proof.
  intros Hd Hon Hnp. unfold isAuthenticated.
  rewrite (bind_ok _ _ _ _ _ (opt_prop_session_user req w)), Hd, Hon. simpl.
  destruct (req_isAuthenticated req); simpl; [| reflexivity].
  destruct (req_user req) as [| | | | |l] eqn:Hu; try reflexivity.
  destruct (heap w !! l) as [o|] eqn:Hl.
  - destruct (Hnp l o). by split.
  - unfold mbind, M_bind, bind, get_prop. rewrite Hl. reflexivity.
Qed.

Lemma user_field_no_principal w req k :
  (forall l o, ~ principal w req l o) -> user_field w req k = VUndef.
Proof.
  intros Hnp. unfold user_field.
  destruct (req_user req) as [| | | | |l] eqn:Hu; try reflexivity.
  destruct (heap w !! l) as [o|] eqn:Hl; [| reflexivity].
  destruct (Hnp l o). by split.
Qed.

(** Every run of the check is one of the paths. *)
Lemma check_path_complete env req w out w' :
  isAuthenticated env req w = (out, w') -> check_path env req w out w'.
Proof.
  intros Hrun.
  destruct (truthy (demo_payload w req)) eqn:Hd.
  { rewrite (check_demo_session env req w Hd) in Hrun.
    injection Hrun as <- <-. by constructor. }
  destruct (truthy (isReplitEnvironment env)) eqn:Hon; cycle 1.
  { rewrite (check_disabled env req w Hd Hon) in Hrun.
    injection Hrun as <- <-. by apply path_disabled. }
  destruct (principal_or_not w req) as [(l & o & Hp) | Hnp]; cycle 1.
  { rewrite (federated_no_principal env req w Hd Hon Hnp) in Hrun.
    destruct (req_isAuthenticated req) eqn:Ha; simpl in Hrun.
    - destruct (nullish (req_user req)) eqn:Hn; injection Hrun as <- <-.
      + by apply path_no_user.
      + apply path_no_expiry; try done.
        by rewrite user_field_no_principal.
    - injection Hrun as <- <-. by apply path_anonymous. }
  rewrite (federated_branch env req w l o Hd Hon Hp) in Hrun.
  destruct (req_isAuthenticated req) eqn:Ha; simpl in Hrun; cycle 1.
  { injection Hrun as <- <-. by apply path_anonymous. }
  destruct (truthy (field o "expires_at")) eqn:He; simpl in Hrun; cycle 1.
  { injection Hrun as <- <-. apply path_no_expiry; try done.
    - by eapply principal_not_nullish.
    - by rewrite (user_field_principal w req l o). }
  destruct (num_le _ _ _) eqn:Hle.
  { injection Hrun as <- <-. by eapply path_fresh. }
  destruct (truthy (field o "refresh_token")) eqn:Htok; simpl in Hrun; cycle 1.
  { injection Hrun as <- <-. by eapply path_no_token. }
  rewrite (refresh_block env req w l o _ Hon (proj2 Hp)) in Hrun.
  cbv zeta in Hrun.
  destruct (discovery env (trace w) _ _) as [e|cfg] eqn:Hdisc.
  { injection Hrun as <- <-. by eapply path_discovery_failed. }
  destruct (refreshTokenGrant env _ cfg _) as [e|tokens] eqn:Hgrant.
  { injection Hrun as <- <-. by eapply path_grant_failed. }
  injection Hrun as <- <-. by eapply path_refreshed.
Qed.

(** Every path is a run of the check. *)
Lemma check_path_sound env req w out w' :
  check_path env req w out w' -> isAuthenticated env req w = (out, w').
Proof.
  intros Hpath. destruct Hpath as
    [Hd | Hd Hoff | Hd Hon Ha | Hd Hon Ha Hn | Hd Hon Ha Hn He
     | l o Hd Hon Ha Hp He Hle | l o Hd Hon Ha Hp He Hle Htok
     | l o e Hd Hon Ha Hp He Hle Htok Hdisc
     | l o cfg e Hd Hon Ha Hp He Hle Htok Hdisc Hgrant
     | l o cfg tokens Hd Hon Ha Hp He Hle Htok Hdisc Hgrant].
  - by apply check_demo_session.
  - by apply check_disabled.
  - destruct (principal_or_not w req) as [(l & o & Hp) | Hnp].
    + by rewrite (federated_branch env req w l o Hd Hon Hp), Ha.
    + by rewrite (federated_no_principal env req w Hd Hon Hnp), Ha.
  - rewrite (federated_no_principal env req w Hd Hon), Ha, Hn; [done |].
    intros l o Hp. apply principal_not_nullish in Hp. congruence.
  - destruct (principal_or_not w req) as [(l & o & Hp) | Hnp].
    + rewrite (federated_branch env req w l o Hd Hon Hp), Ha.
      rewrite (user_field_principal w req l o _ Hp) in He. by rewrite He.
    + by rewrite (federated_no_principal env req w Hd Hon Hnp), Ha, Hn.
  - by rewrite (federated_branch env req w l o Hd Hon Hp), Ha, He, Hle.
  - by rewrite (federated_branch env req w l o Hd Hon Hp), Ha, He, Hle, Htok.
  - rewrite (federated_branch env req w l o Hd Hon Hp), Ha, He, Hle, Htok.
    simpl. rewrite (refresh_block env req w l o _ Hon (proj2 Hp)).
    cbv zeta. by rewrite Hdisc.
  - rewrite (federated_branch env req w l o Hd Hon Hp), Ha, He, Hle, Htok.
    simpl. rewrite (refresh_block env req w l o _ Hon (proj2 Hp)).
    cbv zeta. rewrite Hdisc. unfold after_discovery in Hgrant. simpl in Hgrant.
    by rewrite Hgrant.
  - rewrite (federated_branch env req w l o Hd Hon Hp), Ha, He, Hle, Htok.
    simpl. rewrite (refresh_block env req w l o _ Hon (proj2 Hp)).
    cbv zeta. rewrite Hdisc. unfold after_discovery in Hgrant. simpl in Hgrant.
    by rewrite Hgrant.
Qed.

Lemma trace_grew_1 (a : Event) (t : list Event) : t ≠ a :: t.
Proof. intros H. apply (f_equal length) in H. simpl in H. lia. Qed.

Lemma trace_grew_2 (a b : Event) (t : list Event) : t ≠ a :: b :: t.
Proof. intros H. apply (f_equal length) in H. simpl in H. lia. Qed.

(** *** X1: the answers of the check *)

(** X1. The authentication check answers nothing but [next()] or 401
    Unauthorized; a request let through is the request itself, or the
    request with the demo payload as its user.  The only exception it
    raises is the TypeError of reading [expires_at] on a missing user,
    exactly when there is no demo session, the federated path is
    enabled and passport reports the request authenticated although
    [req.user] is [undefined] or [null]. *)
Theorem check_answers env req w :
  let out := (isAuthenticated env req w).1 in
  (out = Ok (Next req)
   \/ out = Ok (Next (set_req_user req (demo_payload w req)))
   \/ out = Ok (Reply 401 (BMessage "Unauthorized"))
   \/ out = Throw (TypeError "expires_at"))
  /\ ((exists e, out = Throw e) <->
      truthy (demo_payload w req) = false
      /\ truthy (isReplitEnvironment env) = true
      /\ req_isAuthenticated req = true
      /\ nullish (req_user req) = true).
Proof.
  intros out. subst out.
  destruct (isAuthenticated env req w) as [out w'] eqn:Hrun. simpl.
  pose proof (check_path_complete env req w out w' Hrun) as Hpath.
  split.
  - destruct Hpath; auto.
  - split.
    + intros [e He]. destruct Hpath; try discriminate. done.
    + intros (Hd & Hon & Ha & Hn).
      pose proof (check_path_sound env req w _ _
                    (path_no_user env req w Hd Hon Ha Hn)) as Hrun'.
      rewrite Hrun in Hrun'. injection Hrun' as -> _. by eexists.
Qed.

(** *** X2: what the check leaves alone *)

Ltac grown_by :=
  split; [reflexivity |];
  split; [simpl; lia |];
  split; [unfold refresh_calls; simpl; lia | reflexivity].

Ltac grown evs := exists evs; grown_by.

(** X2. The authentication check never touches the session store or the
    strategy registry and never asks the credential validator: the
    trace grows by at most one discovery and one token grant.  The heap
    changes only when a refresh succeeded, and then it is the heap with
    the principal refreshed; every 401 leaves the heap as it was. *)
Theorem check_frame env req w :
  let out := (isAuthenticated env req w).1 in
  let w' := (isAuthenticated env req w).2 in
  store w' = store w
  /\ strategies w' = strategies w
  /\ (exists evs,
        trace w' = evs ++ trace w
        /\ (length evs <= 2)%nat
        /\ (refresh_calls evs <= 1)%nat
        /\ forallb is_idp evs = true)
  /\ (heap w' = heap w
      \/ exists l o tokens,
           principal w req l o
           /\ out = Ok (Next req)
           /\ heap w' = refreshed (heap w) l o tokens)
  /\ (out = Ok (Reply 401 (BMessage "Unauthorized")) -> heap w' = heap w).
Proof.
  intros out w'. subst out w'.
  destruct (isAuthenticated env req w) as [out w'] eqn:Hrun. simpl.
  pose proof (check_path_complete env req w out w' Hrun) as Hpath.
  destruct Hpath;
    try (split; [done |]; split; [done |];
         split; [grown (@nil Event) |];
         split; [by left | done]).
  - split; [done |]. split; [done |].
    split; [eexists [_]; grown_by |].
    split; [by left | done].
  - split; [done |]. split; [done |].
    split; [eexists [_; _]; grown_by |].
    split; [by left | done].
  - split; [done |]. split; [done |].
    split; [eexists [_; _]; grown_by |].
    split; [right; by eexists _, _, _ | discriminate].
Qed.

(** *** X3: the instant of expiry *)




(** *** X4, X5: the request after a refresh *)

Lemma field_overwritten_other o c tokens k :
  k ∉ token_fields -> field (overwritten o c tokens) k = field o k.
Proof. intros Hk. unfold field. by rewrite overwritten_frame. Qed.

Lemma user_not_token_field : "user" ∉ token_fields.
Proof.
  unfold token_fields. rewrite !not_elem_of_cons.
  repeat split; try discriminate. apply not_elem_of_nil.
Qed.

(** A refresh does not create or alter a demo payload. *)
Lemma demo_payload_refreshed w w' req l o tokens :
  session_live w req ->
  heap w !! l = Some o ->
  heap w' = refreshed (heap w) l o tokens ->
  demo_payload w' req = demo_payload w req.
Proof.
  intros Hlive Hl Hw'. unfold demo_payload.
  destruct (req_session req) as [| | | | |ls] eqn:Hs; try reflexivity.
  destruct (Hlive ls Hs) as [s Hls]. rewrite Hw', Hls. unfold refreshed.
  destruct (decide (ls = l)) as [-> | Hne].
  - rewrite lookup_insert_eq. rewrite Hl in Hls. injection Hls as <-.
    apply field_overwritten_other, user_not_token_field.
  - rewrite lookup_insert_ne by done.
    by rewrite (with_claims_lookup _ tokens ls s Hls).
Qed.

(** A run whose trace ends with a successful grant took the refresh
    path. *)
Lemma refresh_run_inv env req w out w' cfg tok tokens rest :
  isAuthenticated env req w = (out, w') ->
  trace w' = EvRefreshTokenGrant cfg tok (inr tokens) :: rest ->
  length rest = S (length (trace w)) ->
  exists l o,
    truthy (demo_payload w req) = false
    /\ req_isAuthenticated req = true
    /\ principal w req l o
    /\ out = Ok (Next req)
    /\ heap w' = refreshed (heap w) l o tokens.
Proof.
  intros Hrun Htr Hlen. apply check_path_complete in Hrun.
  destruct Hrun; simpl in Htr;
    try (exfalso; apply (f_equal length) in Htr; simpl in Htr; lia).
  - by simplify_eq.
  - simplify_eq. by eexists _, _.
Qed.

(** X4. After a check that refreshed the principal with a token response
    whose [exp] claim is a nonzero number, a further check of the same
    request, on an enabled deployment whose clock has not passed that
    expiry, lets it through without any call to the provider: the new
    tokens are used, the refresh is not repeated. *)
Theorem refresh_then_fresh env env' req w out w' cfg tok tokens d e' :
  session_live w req ->
  isAuthenticated env req w = (out, w') ->
  trace w' = EvRefreshTokenGrant cfg tok (inr tokens) :: d :: trace w ->
  claims_exp tokens = VNum e' ->
  e' ≠ 0 ->
  truthy (isReplitEnvironment env') = true ->
  now env' <= e' ->
  isAuthenticated env' req w' = (Ok (Next req), w').
Proof.
  intros Hlive Hrun Htr Hexp Hnz Hon' Hle.
  destruct (refresh_run_inv env req w out w' cfg tok tokens (d :: trace w)
              Hrun Htr eq_refl) as (l & o & Hd & Ha & [Hu Hl] & _ & Hw').
  apply check_path_sound.
  apply (path_fresh env' req w' l
           (overwritten o (claims_value (heap w) tokens) tokens)).
  - by rewrite (demo_payload_refreshed w w' req l o tokens).
  - done.
  - done.
  - split; [done |]. rewrite Hw'. unfold refreshed. apply lookup_insert_eq.
  - unfold overwritten. rewrite field_insert_eq, Hexp. simpl.
    by apply negb_true_iff, Z.eqb_neq.
  - unfold overwritten. rewrite field_insert_eq, Hexp. unfold num_le. simpl.
    by apply Z.leb_le.
Qed.

Lemma refresh_then_fresh_witness :
  let p := Scenario.principal_obj (VNum 1699999000) (VStr "rt1") in
  let w := Scenario.world_of p VUndef in
  let run := isAuthenticated Scenario.hosted Scenario.request w in
  refresh_calls (trace run.2) = 1%nat
  /\ isAuthenticated Scenario.hosted Scenario.request run.2
     = (Ok (Next Scenario.request), run.2).
Proof.
  intros p w run. split; [by vm_compute |].
  eapply (refresh_then_fresh Scenario.hosted Scenario.hosted Scenario.request
            w run.1 run.2 _ _ Scenario.tokens0 _ 1700003600).
  - intros ls [= <-]. by eexists.
  - apply surjective_pairing.
  - by vm_compute.
  - reflexivity.
  - discriminate.
  - reflexivity.
  - by vm_compute.
Defined.

(** X5. After a check that refreshed the principal with a token response
    whose [exp] claim is missing or falsy (no ID token, no [exp], or 0),
    the request went through, but the principal now has no usable
    expiry: every further check of the request, at any time and on any
    deployment, answers 401 without calling the provider. *)
Theorem refresh_without_expiry env env' req w out w' cfg tok tokens d :
  session_live w req ->
  isAuthenticated env req w = (out, w') ->
  trace w' = EvRefreshTokenGrant cfg tok (inr tokens) :: d :: trace w ->
  truthy (claims_exp tokens) = false ->
  out = Ok (Next req)
  /\ isAuthenticated env' req w'
     = (Ok (Reply 401 (BMessage "Unauthorized")), w').
Proof.
  intros Hlive Hrun Htr Hexp.
  destruct (refresh_run_inv env req w out w' cfg tok tokens (d :: trace w)
              Hrun Htr eq_refl) as (l & o & Hd & Ha & [Hu Hl] & Hout & Hw').
  split; [done |].
  assert (Hd' : truthy (demo_payload w' req) = false)
    by by rewrite (demo_payload_refreshed w w' req l o tokens).
  destruct (truthy (isReplitEnvironment env')) eqn:Hon'; cycle 1.
  { by apply check_disabled. }
  apply check_path_sound. apply path_no_expiry; try done.
  - by rewrite Hu.
  - unfold user_field. rewrite Hu, Hw'. unfold refreshed.
    rewrite lookup_insert_eq. unfold overwritten. by rewrite field_insert_eq.
Qed.

Lemma refresh_without_expiry_witness :
  let p := Scenario.principal_obj (VNum 1699999000) (VStr "rt1") in
  let w := Scenario.world_of p VUndef in
  let run := isAuthenticated Cases.forgetful Scenario.request w in
  run.1 = Ok (Next Scenario.request)
  /\ isAuthenticated Scenario.hosted Scenario.request run.2
     = (Ok (Reply 401 (BMessage "Unauthorized")), run.2).
Proof.
  intros p w run.
  eapply (refresh_without_expiry Cases.forgetful Scenario.hosted
            Scenario.request w run.1 run.2 _ _ Cases.tokens_without_exp _).
  - intros ls [= <-]. by eexists.
  - apply surjective_pairing.
  - by vm_compute.
  - reflexivity.
Defined.

(** *** X6, X7: the check and the current-user query agree *)

Lemma auth_user_run req w :
  auth_user req w
  = (Ok (if truthy (demo_payload w req) then Reply 200 (BJson (demo_payload w req))
         else if req_isAuthenticated req && truthy (req_user req)
              then Reply 200 (BJson (req_user req))
              else unauthorized), w).
Proof.
  unfold auth_user.
  rewrite (bind_ok _ _ _ _ _ (opt_prop_session_user req w)).
  destruct (truthy (demo_payload w req)); [reflexivity |].
  by destruct (req_isAuthenticated req && truthy (req_user req)).
Qed.

(** X6. Whenever the authentication check lets a request through, the
    current-user query on the request and world it hands on answers 200
    with the very user the protected route sees in [req.user], be it
    the demo payload or the (possibly just refreshed) principal. *)
Theorem passed_check_is_logged_in env req w r w' :
  session_live w req ->
  isAuthenticated env req w = (Ok (Next r), w') ->
  auth_user r w' = (Ok (Reply 200 (BJson (req_user r))), w').
Proof.
  intros Hlive Hrun. rewrite auth_user_run.
  apply check_path_complete in Hrun.
  inversion Hrun as
    [Hd Ho | | | | | l o Hd _ Ha [Hu _] _ _ Ho
     | | | | l o cfg tokens Hd _ Ha [Hu Hl] _ _ _ _ _ Ho Hw]; subst.
  - change (demo_payload w' (set_req_user req (demo_payload w' req)))
      with (demo_payload w' req). by rewrite Hd.
  - by rewrite Hd, Ha, Hu.
  - erewrite (demo_payload_refreshed w _ r l o tokens Hlive Hl);
      [| reflexivity].
    by rewrite Hd, Ha, Hu.
Qed.

Lemma passed_check_is_logged_in_witness :
  let p := Scenario.principal_obj (VNum 1699999000) (VStr "rt1") in
  let w := Scenario.world_of p VUndef in
  let run := isAuthenticated Scenario.hosted Scenario.request w in
  auth_user Scenario.request run.2
  = (Ok (Reply 200 (BJson (VRef 1%positive))), run.2).
Proof.
  intros p w run.
  apply (passed_check_is_logged_in Scenario.hosted Scenario.request w
           Scenario.request run.2).
  - intros ls [= <-]. by eexists.
  - by vm_compute.
Defined.

(** X7. Conversely, a request that the current-user query answers with
    401 is never let through by the authentication check, on any
    deployment and at any time. *)
Theorem logged_out_never_passes env req w r w' :
  auth_user req w = (Ok (Reply 401 (BMessage "Unauthorized")), w) ->
  isAuthenticated env req w <> (Ok (Next r), w').
Proof.
  rewrite auth_user_run. intros Hq Hrun.
  apply check_path_complete in Hrun.
  inversion Hrun as
    [Hd Ho | | | | | l o Hd _ Ha [Hu _] _ _ Ho
     | | | | l o cfg tokens Hd _ Ha [Hu Hl] _ _ _ _ _ Ho Hw]; subst.
  - rewrite Hd in Hq. discriminate.
  - rewrite Hd, Ha, Hu in Hq. discriminate.
  - rewrite Hd, Ha, Hu in Hq. discriminate.
Qed.

Lemma logged_out_never_passes_witness :
  let w := Scenario.world_of (Scenario.principal_obj (VNum 1700003600) VUndef)
             VUndef in
  auth_user (Cases.visitor "a.example") w
  = (Ok (Reply 401 (BMessage "Unauthorized")), w)
  /\ isAuthenticated Scenario.hosted (Cases.visitor "a.example") w
     <> (Ok (Next (Cases.visitor "a.example")), w).
Proof.
  intros w. split; [reflexivity |].
  apply (logged_out_never_passes Scenario.hosted (Cases.visitor "a.example") w).
  reflexivity.
Defined.

(** *** The demo login, path by path *)

Lemma get_body_prop req w k :
  nullish (req_body req) = false ->
  get_prop (req_body req) k w = (Ok (body_field w req k), w).
Proof.
  intros Hn. unfold get_prop, body_field.
  destruct (req_body req) as [| | | | |l]; try done.
  by destruct (heap w !! l).
Qed.

Lemma materialise_ok f w : exists user w2, materialise f w = (Ok user, w2).
Proof. destruct f; by eexists _, _. Qed.

Lemma set_session_user req user w2 :
  (exists ls s, req_session req = VRef ls /\ heap w2 !! ls = Some s
                /\ set_prop (req_session req) "user" user w2
                   = (Ok tt, set_heap (<[ls := <["user" := user]> s]> (heap w2)) w2))
  \/ ((forall ls s, req_session req = VRef ls -> heap w2 !! ls = Some s -> False)
      /\ set_prop (req_session req) "user" user w2 = (Throw (TypeError "user"), w2)).
Proof.
  unfold set_prop. destruct (req_session req) as [| | | | |ls] eqn:Hs;
    try (right; split; [intros ? ? [=] | reflexivity]).
  destruct (heap w2 !! ls) as [s|] eqn:Hls.
  - left. by exists ls, s.
  - right. split; [| reflexivity]. intros ls' s' [= <-] Hls'. congruence.
Qed.

(** Every run of the login handler is one of the paths. *)
Lemma login_path_complete env req w out w' :
  login_post env req w = (out, w') ->
  exists o, out = Ok o /\ login_path env req w o w'.
Proof.
  unfold login_post, try_catch, login_attempt. intros Hrun.
  destruct (nullish (req_body req)) eqn:Hn.
  { assert (Hb : get_prop (req_body req) "email" w = (Throw (TypeError "email"), w))
      by (destruct (req_body req); try discriminate; reflexivity).
    unfold mbind at 1, M_bind at 1, bind at 1 in Hrun. rewrite Hb in Hrun.
    injection Hrun as <- <-. eexists. split; [reflexivity |].
    by apply login_no_body. }
  rewrite (bind_ok _ _ _ _ _ (get_body_prop req w "email" Hn)) in Hrun.
  rewrite (bind_ok _ _ _ _ _ (get_body_prop req w "password" Hn)) in Hrun.
  destruct (truthy (body_field w req "email")
            && truthy (body_field w req "password")) eqn:Hboth.
  2:{ replace (negb (truthy (body_field w req "email"))
               || negb (truthy (body_field w req "password"))) with true in Hrun
        by (symmetry; rewrite <- negb_andb; by rewrite Hboth).
      injection Hrun as <- <-. eexists. split; [reflexivity |].
      by apply login_missing. }
  replace (negb (truthy (body_field w req "email"))
           || negb (truthy (body_field w req "password"))) with false in Hrun
    by (symmetry; rewrite <- negb_andb; by rewrite Hboth).
  unfold mbind at 1, M_bind at 1, bind at 1 in Hrun.
  rewrite validateCredentials_run in Hrun. cbv zeta in Hrun.
  fold (after_validate env w req) in Hrun.
  destruct (validateCredentials env (trace w) _ _) as [err|f] eqn:Hv.
  { injection Hrun as <- <-. eexists. split; [reflexivity |].
    by apply login_validator_failed. }
  destruct (materialise_ok f (after_validate env w req)) as (user & w2 & Hm).
  rewrite Hm in Hrun.
  destruct (truthy user) eqn:Hu; simpl in Hrun.
  2:{ injection Hrun as <- <-. eexists. split; [reflexivity |].
      by eapply login_unknown. }
  unfold mbind, M_bind, bind in Hrun.
  destruct (set_session_user req user w2)
    as [(ls & s & Hs & Hls & Hset) | [Hno Hset]]; rewrite Hset in Hrun.
  - injection Hrun as <- <-. eexists. split; [reflexivity |].
    by eapply login_ok.
  - injection Hrun as <- <-. eexists. split; [reflexivity |].
    by eapply login_no_session.
Qed.

Lemma materialise_frame f w1 user w2 :
  materialise f w1 = (Ok user, w2) ->
  store w2 = store w1 /\ strategies w2 = strategies w1 /\ trace w2 = trace w1
  /\ (forall l o, heap w1 !! l = Some o -> heap w2 !! l = Some o)
  /\ (truthy user = false -> w2 = w1).
Proof.
  destruct f as [v|o]; simpl.
  - intros [= <- <-]. by repeat split.
  - unfold alloc. intros [= <- <-]. simpl. repeat split; try done.
    intros l o' Hl. rewrite lookup_insert_ne; [done |]. by eapply fresh_loc_ne.
Qed.

(** *** X8: a demo login authenticates the session *)

(** X8. When [POST /api/login] answers 200, the validator was asked
    with the email and password of the body and did not fail, the user
    in the answer is the truthy value it returned, and the handler left
    that user under [session.user].  The authentication check run on
    that request in the state the handler left then proceeds on every
    deployment, the forwarded request having this user as its [user]
    and being otherwise the request received, and the current-user
    query answers 200 with the same user; neither changes the state. *)
Theorem login_then_authenticated env env' req w b w' :
  login_post env req w = (Ok (Reply 200 b), w') ->
  exists f user w2,
    validateCredentials env (trace w)
      (body_field w req "email") (body_field w req "password") = inr f
    /\ materialise f (after_validate env w req) = (Ok user, w2)
    /\ truthy user = true
    /\ b = BUserMessage user "Успешный вход в систему"
    /\ demo_payload w' req = user
    /\ isAuthenticated env' req w'
       = (Ok (Next {| req_session := req_session req;
                      req_sessionID := req_sessionID req;
                      req_user := user;
                      req_isAuthenticated := req_isAuthenticated req;
                      req_body := req_body req;
                      req_hostname := req_hostname req |}), w')
    /\ auth_user req w' = (Ok (Reply 200 (BJson user)), w').
Proof.
  intros Hrun.
  destruct (login_path_complete env req w _ _ Hrun) as (o & [= <-] & Hpath).
  inversion Hpath as [ | | | | f user w2 ls s _ _ Hv Hm Hu Hs Hls | ]; subst.
  exists f, user, w2.
  assert (Hd : demo_payload
                 (set_heap (<[ls := <["user" := user]> s]> (heap w2)) w2) req
               = user).
  { unfold demo_payload. rewrite Hs. simpl.
    rewrite lookup_insert_eq. apply field_insert_eq. }
  split; [exact Hv |]. split; [exact Hm |]. split; [exact Hu |].
  split; [reflexivity |]. split; [exact Hd |]. split.
  - rewrite <- Hd at 2. apply check_demo_session. by rewrite Hd.
  - by rewrite auth_user_run, Hd, Hu.
Qed.

Lemma login_then_authenticated_witness :
  let w := Scenario.world_of (Scenario.principal_obj (VNum 5) VUndef) VUndef in
  let run := login_post Scenario.demo_only Scenario.request w in
  req_user Scenario.request = VRef 1%positive
  /\ heap run.2 !! 7%positive = Some Scenario.demo_user
  /\ isAuthenticated Scenario.hosted Scenario.request run.2
     = (Ok (Next {| req_session := VRef 2%positive;
                    req_sessionID := "s1";
                    req_user := VRef 7%positive;
                    req_isAuthenticated := true;
                    req_body := VRef 6%positive;
                    req_hostname := "a.example" |}), run.2)
  /\ auth_user Scenario.request run.2
     = (Ok (Reply 200 (BJson (VRef 7%positive))), run.2).
Proof.
  intros w run.
  destruct (login_then_authenticated Scenario.demo_only Scenario.hosted
              Scenario.request w
              (BUserMessage (VRef 7%positive) "Успешный вход в систему") run.2)
    as (f & user & w2 & _ & _ & _ & Hb & _ & Hcheck & Hquery).
  - by vm_compute.
  - injection Hb as <-. split; [reflexivity |]. split; [by vm_compute |].
    split; [exact Hcheck | exact Hquery].
Defined.

(** *** X9: what a login leaves alone *)

Ltac frame_tail :=
  repeat split; simpl; try done;
  try (unfold validate_calls, refresh_calls; simpl; lia).

(** X9. [POST /api/login] always answers, with status 200, 400, 401 or
    500.  Unless it answers 200, every object that was in the heap is
    unchanged, so a demo payload already in the session stays as it
    was.  In every case the session store and the strategy registry
    are untouched, the credential validator is asked at most once and
    no token refresh is attempted. *)
Theorem login_frame env req w :
  let out := (login_post env req w).1 in
  let w' := (login_post env req w).2 in
  (exists status body,
      out = Ok (Reply status body)
      /\ (status = 200 \/ status = 400 \/ status = 401 \/ status = 500)
      /\ (status ≠ 200 ->
          (forall l o, heap w !! l = Some o -> heap w' !! l = Some o)
          /\ demo_payload w' req = demo_payload w req))
  /\ store w' = store w
  /\ strategies w' = strategies w
  /\ (validate_calls (trace w') <= validate_calls (trace w) + 1)%nat
  /\ refresh_calls (trace w') = refresh_calls (trace w).
Proof.
  intros out w'. subst out w'.
  destruct (login_post env req w) as [out w'] eqn:Hrun. simpl.
  destruct (login_path_complete env req w _ _ Hrun) as (o & -> & Hpath).
  destruct Hpath as
    [Hn | Hn Hmiss | err Hn Hboth Hv | f user w2 Hn Hboth Hv Hm Hu
     | f user w2 ls s Hn Hboth Hv Hm Hu Hs Hls | f user w2 Hn Hboth Hv Hm Hu Hno];
    try (apply materialise_frame in Hm as (Hst & Hsg & Htr & Hobj & Hsame)).
  - split; [eexists _, _; split; [reflexivity |]; split; [auto |]; done |].
    frame_tail.
  - split; [eexists _, _; split; [reflexivity |]; split; [auto |]; done |].
    frame_tail.
  - split; [eexists _, _; split; [reflexivity |]; split; [auto |]; done |].
    frame_tail.
  - rewrite (Hsame Hu).
    split; [eexists _, _; split; [reflexivity |]; split; [auto |]; done |].
    frame_tail.
  - split; [eexists _, _; split; [reflexivity |]; split; [auto |]; done |].
    simpl. rewrite Hst, Hsg, Htr. frame_tail.
  - split.
    + eexists _, _. split; [reflexivity |]. split; [auto |]. intros _. split.
      * intros l o Hl. simpl. by apply Hobj.
      * unfold demo_payload. simpl.
        destruct (req_session req) as [| | | | |ls] eqn:Hs; try reflexivity.
        destruct (heap w2 !! ls) as [s|] eqn:Hls; [by destruct (Hno ls s) |].
        destruct (heap w !! ls) as [s|] eqn:Hls0; [| reflexivity].
        apply Hobj in Hls0. congruence.
    + simpl. rewrite Hst, Hsg, Htr. frame_tail.
Qed.

(** *** The verify callback *)

Lemma upsertUser_object st lc c w :
  heap w !! lc = Some c ->
  upsertUser st (VRef lc) w
  = match st (user_record c) with
    | Some e => (Throw e, w)
    | None => (Ok (user_record c), w)
    end.
Proof.
  intros Hl. unfold upsertUser.
  do 5 rewrite (bind_ok _ _ _ _ _ (get_prop_ref lc c _ w Hl)).
  fold (user_record c). by destruct (st (user_record c)).
Qed.

(** The heap once [verify] has built the principal from [tokens]. *)
Lemma verify_principal_heap tokens w :
  exists w1,
    (user ← alloc ∅; updateUserSession user tokens;; mret user) w
    = (Ok (VRef (fresh (dom (heap w)))), w1)
    /\ heap w1
       = refreshed (<[fresh (dom (heap w)) := ∅]> (heap w))
           (fresh (dom (heap w))) ∅ tokens
    /\ store w1 = store w /\ strategies w1 = strategies w /\ trace w1 = trace w.
Proof.
  eexists. split.
  - unfold mbind at 1, M_bind at 1, bind at 1, alloc at 1.
    erewrite bind_ok; [reflexivity |].
    apply updateUserSession_run. simpl. apply lookup_insert_eq.
  - by repeat split.
Qed.

Lemma verify_run st tokens w :
  let l := fresh (dom (heap w)) in
  let h1 := refreshed (<[l := ∅]> (heap w)) l ∅ tokens in
  verify st tokens w
  = match tok_claims tokens with
    | None => (Throw (TypeError "sub"), set_heap h1 w)
    | Some c =>
        let w2 := set_heap (<[fresh (dom h1) := c]> h1) w in
        match st (user_record c) with
        | Some e => (Throw e, w2)
        | None => (Ok (VRef l, user_record c), w2)
        end
    end.
Proof.
  intros l h1. unfold verify.
  unfold mbind at 1, M_bind at 1, bind at 1, alloc at 1.
  fold l.
  assert (Hl : heap (set_heap (<[l := ∅]> (heap w)) w) !! l = Some ∅)
    by (simpl; apply lookup_insert_eq).
  rewrite (bind_ok _ _ _ _ _ (updateUserSession_run l ∅ tokens _ Hl)).
  simpl heap. fold h1.
  rewrite (bind_ok _ _ _ _ _ (tokens_claims_run tokens _)).
  unfold claims_value, with_claims. simpl heap.
  destruct (tok_claims tokens) as [c|]; cbv zeta.
  - unfold mbind, M_bind, bind.
    rewrite (upsertUser_object st (fresh (dom h1)) c); cycle 1.
    { simpl. apply lookup_insert_eq. }
    by destruct (st (user_record c)).
  - reflexivity.
Qed.

Lemma fresh_insert_ne (h : gmap loc (gmap string val)) l o l' o' :
  <[l := o]> h !! l' = Some o' -> fresh (dom (<[l := o]> h)) ≠ l'.
Proof. apply fresh_loc_ne. Qed.

(** *** X10: the principal built at login *)

(** X10. When the token response has ID token claims and the upsert
    succeeds, [verify] hands to passport a new object with exactly the
    four properties [claims], [access_token], [refresh_token] and
    [expires_at], taken from the token response ([expires_at] being the
    [exp] claim), after upserting the user record derived from the
    claims; the objects that existed, the session store, the registry
    and the trace are unchanged. *)
Theorem verify_builds_principal st tokens c w :
  tok_claims tokens = Some c ->
  st (user_record c) = None ->
  exists l p w',
    verify st tokens w = (Ok (VRef l, user_record c), w')
    /\ heap w !! l = None
    /\ heap w' !! l = Some p
    /\ dom p = list_to_set token_fields
    /\ field p "access_token" = tok_access_token tokens
    /\ field p "refresh_token" = tok_refresh_token tokens
    /\ field p "expires_at" = field c "exp"
    /\ (exists lc, field p "claims" = VRef lc /\ heap w' !! lc = Some c)
    /\ (forall l' o, heap w !! l' = Some o -> heap w' !! l' = Some o)
    /\ store w' = store w /\ strategies w' = strategies w /\ trace w' = trace w.
Proof.
  intros Hc Hst. pose proof (verify_run st tokens w) as Hrun.
  cbv zeta in Hrun. rewrite Hc in Hrun. cbv zeta in Hrun. rewrite Hst in Hrun.
  set (l := fresh (dom (heap w))) in *.
  set (h0 := <[l := ∅]> (heap w)) in *.
  assert (Hl0 : h0 !! l = Some ∅) by apply lookup_insert_eq.
  set (lc := fresh (dom h0)) in *.
  assert (Hlc : lc ≠ l) by by eapply fresh_loc_ne.
  set (p := overwritten ∅ (claims_value h0 tokens) tokens) in *.
  assert (Hh1 : refreshed h0 l ∅ tokens = <[l := p]> (<[lc := c]> h0))
    by (unfold refreshed, with_claims; by rewrite Hc).
  rewrite Hh1 in Hrun.
  set (h1 := <[l := p]> (<[lc := c]> h0)) in *.
  assert (Hl1 : h1 !! l = Some p) by apply lookup_insert_eq.
  assert (Hlc1 : h1 !! lc = Some c)
    by (unfold h1; rewrite lookup_insert_ne by done; apply lookup_insert_eq).
  exists l, p. eexists. split; [exact Hrun |]. simpl.
  split; [apply fresh_loc_unused |].
  split. { rewrite lookup_insert_ne; [done |]. by eapply fresh_loc_ne. }
  split.
  { unfold p, overwritten, token_fields. rewrite !dom_insert_L, dom_empty_L.
    simpl. set_solver. }
  split. { unfold p, overwritten.
           rewrite !field_insert_ne by discriminate. apply field_insert_eq. }
  split. { unfold p, overwritten.
           rewrite !field_insert_ne by discriminate. apply field_insert_eq. }
  split. { unfold p, overwritten, claims_exp. rewrite field_insert_eq.
           by rewrite Hc. }
  split.
  { exists lc. split.
    - unfold p, overwritten, claims_value.
      rewrite !field_insert_ne by discriminate. rewrite field_insert_eq.
      by rewrite Hc.
    - rewrite lookup_insert_ne; [done |]. by eapply fresh_loc_ne. }
  split; [| done].
  intros l' o Hl'.
  assert (Hn : l ≠ l') by by eapply fresh_loc_ne.
  assert (H0 : h0 !! l' = Some o) by (unfold h0; by rewrite lookup_insert_ne).
  assert (H1 : h1 !! l' = Some o).
  { unfold h1. rewrite lookup_insert_ne by done.
    rewrite lookup_insert_ne; [done |]. by eapply fresh_loc_ne. }
  rewrite lookup_insert_ne; [done |]. by eapply fresh_loc_ne.
Qed.

Lemma verify_builds_principal_witness :
  exists l p w',
    verify Cases.storage_ok Scenario.tokens0 Scenario.startup
    = (Ok (VRef l, {| u_id := VStr "u1"; u_email := VUndef;
                      u_firstName := VUndef; u_lastName := VUndef;
                      u_profileImageUrl := VUndef |}), w')
    /\ heap w' !! l = Some p
    /\ field p "expires_at" = VNum 1700003600
    /\ dom p = list_to_set token_fields.
Proof.
  destruct (verify_builds_principal Cases.storage_ok Scenario.tokens0
              _ Scenario.startup eq_refl eq_refl)
    as (l & p & w' & Hrun & _ & Hl & Hdom & _ & _ & Hexp & _).
  exists l, p, w'. split; [exact Hrun |]. split; [exact Hl |].
  split; [exact Hexp | exact Hdom].
Defined.

(** *** X11: when [verify] fails *)

(** X11. [verify] hands a user to passport only if the token response
    has ID token claims and the upsert succeeds.  Without claims it
    raises a TypeError while building the record, whatever the storage
    would answer; with claims, an error of the storage is raised as
    it is. *)
Theorem verify_outcome st tokens w :
  match tok_claims tokens with
  | None =>
      forall st', (verify st' tokens w).1 = Throw (TypeError "sub")
  | Some c =>
      (verify st tokens w).1
      = match st (user_record c) with
        | Some e => Throw e
        | None => Ok (VRef (fresh (dom (heap w))), user_record c)
        end
  end.
Proof.
  destruct (tok_claims tokens) as [c|] eqn:Hc.
  - rewrite verify_run. cbv zeta. rewrite Hc.
    by destruct (st (user_record c)).
  - intros st'. rewrite verify_run. cbv zeta. by rewrite Hc.
Qed.

(** *** X12: from login to the first protected request *)

Lemma untouched_pass_iff env req w l o :
  truthy (demo_payload w req) = false ->
  truthy (isReplitEnvironment env) = true ->
  req_isAuthenticated req = true ->
  principal w req l o ->
  isAuthenticated env req w = (Ok (Next req), w)
  <-> truthy (field o "expires_at") = true
      /\ num_le (to_number_ext env) (now env) (field o "expires_at") = true.
Proof.
  intros Hd Hon Ha Hp. split.
  - intros Hrun. apply check_path_complete in Hrun.
    inversion Hrun as
      [Hd' Ho | | | | | l' o' _ _ _ Hp' He' Hle'
       | | | | l' o' cfg tokens _ _ _ _ _ _ _ _ _ Ho Hw]; subst.
    + congruence.
    + destruct Hp as [Hu Hl], Hp' as [Hu' Hl'].
      rewrite Hu in Hu'. injection Hu' as <-. rewrite Hl in Hl'.
      by injection Hl' as <-.
    + exfalso. apply (f_equal trace) in Hw. simpl in Hw.
      by eapply trace_grew_2.
  - intros [He Hle]. apply check_path_sound. by eapply path_fresh.
Qed.

(** X12. Take the principal that [verify] handed to passport.  A later
    request carrying it (authenticated, no demo session, federated path
    enabled) passes the check untouched and without any call to the
    provider exactly when the [exp] claim of the login's ID token is
    truthy and not before the current second; in particular a login
    whose ID token has no [exp] never passes this way. *)
Theorem verified_principal_check st tokens w l record w' env req :
  verify st tokens w = (Ok (VRef l, record), w') ->
  req_user req = VRef l ->
  req_isAuthenticated req = true ->
  truthy (demo_payload w' req) = false ->
  truthy (isReplitEnvironment env) = true ->
  isAuthenticated env req w' = (Ok (Next req), w')
  <-> truthy (claims_exp tokens) = true
      /\ num_le (to_number_ext env) (now env) (claims_exp tokens) = true.
Proof.
  intros Hrun Hu Ha Hd Hon.
  rewrite verify_run in Hrun. cbv zeta in Hrun.
  destruct (tok_claims tokens) as [c|] eqn:Hc; [| discriminate].
  destruct (st (user_record c)); [discriminate |].
  injection Hrun as <- _ <-.
  set (l := fresh (dom (heap w))) in *.
  set (h0 := <[l := ∅]> (heap w)) in *.
  set (p := overwritten ∅ (claims_value h0 tokens) tokens).
  assert (Hp : principal
                 (set_heap (<[fresh (dom (refreshed h0 l ∅ tokens)) := c]>
                              (refreshed h0 l ∅ tokens)) w) req l p).
  { split; [done |]. simpl. rewrite lookup_insert_ne.
    - unfold refreshed. apply lookup_insert_eq.
    - apply fresh_loc_ne with (o := p). unfold refreshed. apply lookup_insert_eq. }
  rewrite (untouched_pass_iff env req _ l p Hd Hon Ha Hp).
  unfold p, overwritten. by rewrite field_insert_eq.
Qed.

Lemma verified_principal_check_witness :
  let run := verify Cases.storage_ok Scenario.tokens0 Scenario.startup in
  let req := {| req_session := VUndef; req_sessionID := EmptyString;
                req_user := VRef 1%positive; req_isAuthenticated := true;
                req_body := VUndef; req_hostname := "a.example" |} in
  run.1 = Ok (VRef 1%positive, user_record
                (default ∅ (tok_claims Scenario.tokens0)))
  /\ isAuthenticated Scenario.hosted req run.2 = (Ok (Next req), run.2).
Proof.
  intros run req. split; [by vm_compute |].
  apply (verified_principal_check Cases.storage_ok Scenario.tokens0
           Scenario.startup 1%positive
           (user_record (default ∅ (tok_claims Scenario.tokens0)))
           run.2 Scenario.hosted req).
  - by vm_compute.
  - reflexivity.
  - reflexivity.
  - reflexivity.
  - reflexivity.
  - split; by vm_compute.
Defined.

(** *** X13: setup never fails *)

Lemma setupAuth_run env w :
  setupAuth env w
  = if truthy (isReplitEnvironment env) then
      match discovery env (trace w)
              (default "https://replit.com/oidc" (ISSUER_URL env))
              (default EmptyString (REPL_ID env)) with
      | inl e =>
          (Ok tt,
           set_trace
             (EvConsoleLog "OpenID setup failed, using demo login only:" (Some e)
              :: trace (after_discovery env w (inl e))) w)
      | inr cfg =>
          let w1 :=
            set_strategies
              (registered env cfg (split "," (replit_domains env)) (strategies w))
              (after_discovery env w (inr cfg)) in
          match loop_failure env cfg (split "," (replit_domains env)) with
          | None => (Ok tt, w1)
          | Some e =>
              (Ok tt,
               set_trace
                 (EvConsoleLog "OpenID setup failed, using demo login only:"
                    (Some e) :: trace w1) w1)
          end
      end
    else
      (Ok tt,
       set_trace
         (EvConsoleLog "Not in Replit environment, using demo login only" None
          :: trace w) w).
Proof.
  unfold setupAuth. destruct (truthy (isReplitEnvironment env)) eqn:Hon;
    [| reflexivity].
  unfold try_catch.
  destruct (discovery env (trace w) _ _) as [e|cfg] eqn:Hdisc.
  - unfold mbind, M_bind, bind, getOidcConfig. rewrite Hon. simpl.
    unfold mbind, M_bind, bind, history, emit, settle. simpl.
    by rewrite Hdisc.
  - rewrite (bind_ok _ _ _ _ _ (getOidcConfig_ok env w cfg Hon Hdisc)).
    rewrite for_of_passport_use. cbv zeta.
    by destruct (loop_failure env cfg (split "," (replit_domains env))).
Qed.

(** After a discovery that succeeded the registry is what the loop
    made of it, whether the loop ended by itself or on a throw. *)
Lemma setupAuth_strategies env w cfg :
  truthy (isReplitEnvironment env) = true ->
  discovery env (trace w) (default "https://replit.com/oidc" (ISSUER_URL env))
    (default EmptyString (REPL_ID env)) = inr cfg ->
  strategies (setupAuth env w).2
  = registered env cfg (split "," (replit_domains env)) (strategies w).
Proof.
  intros Hon Hdisc. rewrite setupAuth_run, Hon, Hdisc. cbv zeta.
  by destruct (loop_failure env cfg (split "," (replit_domains env))).
Qed.

(** X13. [setupAuth] never throws and never touches the heap or the
    session store.  On a demo-only deployment, and when discovery
    fails, it leaves the strategy registry exactly as it found it and
    only writes a line to the log. *)
Theorem setupAuth_degrades env w :
  let run := setupAuth env w in
  run.1 = Ok tt
  /\ heap run.2 = heap w
  /\ store run.2 = store w
  /\ (truthy (isReplitEnvironment env) = false
      \/ (exists e,
             discovery env (trace w)
               (default "https://replit.com/oidc" (ISSUER_URL env))
               (default EmptyString (REPL_ID env)) = inl e) ->
      strategies run.2 = strategies w
      /\ exists label detail rest,
           trace run.2 = EvConsoleLog label detail :: rest).
Proof.
  cbv zeta. rewrite setupAuth_run.
  destruct (truthy (isReplitEnvironment env)) eqn:Hon.
  - destruct (discovery env (trace w) _ _) as [e|cfg] eqn:Hdisc.
    + simpl. repeat split. by eexists _, _, _.
    + destruct (loop_failure env cfg (split "," (replit_domains env)));
        simpl; repeat split; destruct H as [? | [? ?]]; discriminate.
  - simpl. repeat split. by eexists _, _, _.
Qed.

(** *** X14: setup twice *)

Lemma named_in_dec (ds : list string) n :
  {exists d, d ∈ ds /\ strategy_name d = n}
  + {forall d, d ∈ ds -> strategy_name d ≠ n}.
Proof.
  induction ds as [|d ds IH].
  - right. intros d Hd. by apply elem_of_nil in Hd.
  - destruct (decide (strategy_name d = n)) as [Heq | Hne].
    + left. exists d. split; [left | done].
    + destruct IH as [Hyes | Hno].
      * left. destruct Hyes as (d' & Hd' & Hn). exists d'. split; [by right | done].
      * right. intros d' Hd'. apply elem_of_cons in Hd' as [-> | Hd']; auto.
Qed.

Lemma registered_twice env cfg ds reg :
  registered env cfg ds (registered env cfg ds reg) = registered env cfg ds reg.
Proof.
  apply map_eq. intros n.
  destruct (named_in_dec (registrable env ds) n) as [(d & Hd & <-) | Hno].
  - destruct (registered_domain env cfg ds reg d Hd) as (s & Hs & ->).
    destruct (registered_domain env cfg ds (registered env cfg ds reg) d Hd)
      as (s' & Hs' & ->).
    congruence.
  - by rewrite !registered_other.
Qed.

(** X14. Running [setupAuth] a second time, with discovery answering
    the same configuration, leaves the strategy registry as the first
    run left it: one strategy per name, nothing duplicated. *)
Theorem setupAuth_idempotent env w cfg :
  truthy (isReplitEnvironment env) = true ->
  discovery env (trace w) (default "https://replit.com/oidc" (ISSUER_URL env))
    (default EmptyString (REPL_ID env)) = inr cfg ->
  discovery env (trace (setupAuth env w).2)
    (default "https://replit.com/oidc" (ISSUER_URL env))
    (default EmptyString (REPL_ID env)) = inr cfg ->
  strategies (setupAuth env (setupAuth env w).2).2
  = strategies (setupAuth env w).2.
Proof.
  intros Hon H1 H2.
  rewrite (setupAuth_strategies env (setupAuth env w).2 cfg Hon H2).
  rewrite (setupAuth_strategies env w cfg Hon H1).
  apply registered_twice.
Qed.

Lemma setupAuth_idempotent_witness :
  let once := (setupAuth Scenario.hosted Scenario.startup).2 in
  size (strategies once) = 2%nat
  /\ strategies (setupAuth Scenario.hosted once).2 = strategies once.
Proof.
  intros once. split; [by vm_compute |].
  apply (setupAuth_idempotent Scenario.hosted Scenario.startup
           {| cfg_issuer := "https://replit.com/oidc";
              cfg_client_id := "repl-1"; cfg_metadata := "metadata" |});
    reflexivity.
Defined.

(** *** X15, X16: which strategy a hostname gets *)

(** The domains the loop reaches with success are those of the list
    whose callback URL parses, as does that of every domain before
    them. *)
Lemma registrable_spec env ds h :
  h ∈ registrable env ds
  <-> exists pre post,
        ds = pre ++ h :: post
        /\ Forall (fun d => exists url, new_URL env (callback_url d) = inr url)
             (pre ++ [h]).
Proof.
  induction ds as [|d ds IH]; simpl.
  - split; [intros H; by apply elem_of_nil in H |].
    intros (pre & post & H & _). by destruct pre.
  - destruct (new_URL env (callback_url d)) as [e|u] eqn:Hu.
    + split; [intros H; by apply elem_of_nil in H |].
      intros (pre & post & Heq & Hall).
      destruct pre as [|p pre]; simpl in Heq, Hall; injection Heq as <- Heq;
        inversion Hall as [|? ? [u' Hu'] _]; congruence.
    + rewrite elem_of_cons, IH. split.
      * intros [-> | (pre & post & -> & Hall)].
        -- exists [], ds. split; [done |]. repeat constructor. by exists u.
        -- exists (d :: pre), post. split; [done |]. simpl.
           constructor; [by exists u | done].
      * intros (pre & post & Heq & Hall).
        destruct pre as [|p pre]; simpl in Heq, Hall; injection Heq as <- Heq.
        -- by left.
        -- right. exists pre, post. split; [done |]. by inversion Hall.
Qed.

(** X15. After a setup from an empty registry in which discovery
    succeeded, the login and callback routes hand a request to a
    strategy exactly when its hostname is, character for character, one
    of the comma-separated pieces of the allowed-hostname list that the
    registration loop reached: a piece whose callback URL parses, as
    does that of every piece before it.  Both routes then use the same
    strategy, named after the hostname, whose callback URL is the
    parsed [https://{hostname}/api/callback] (that very string for a
    host of plain lower-case labels).  Every other hostname, be it a
    piece at or after the first whose callback URL does not parse,
    names an unknown strategy. *)
Theorem federated_routes_select env w cfg req :
  truthy (isReplitEnvironment env) = true ->
  discovery env (trace w) (default "https://replit.com/oidc" (ISSUER_URL env))
    (default EmptyString (REPL_ID env)) = inr cfg ->
  strategies w = ∅ ->
  let w' := (setupAuth env w).2 in
  let h := req_hostname req in
  let reached :=
    exists pre post,
      split "," (replit_domains env) = pre ++ h :: post
      /\ Forall (fun d => exists url,
                     new_URL env ("https://" +:+ d +:+ "/api/callback") = inr url)
           (pre ++ [h]) in
  (reached ->
   exists s o1 o2,
     login_get env req w' = Authenticate s o1
     /\ callback_get env req w' = Authenticate s o2
     /\ new_URL env ("https://" +:+ h +:+ "/api/callback") = inr (callbackURL s)
     /\ (plain_host h = true ->
         callbackURL s = "https://" +:+ h +:+ "/api/callback")
     /\ name s = "replitauth:" +:+ h)
  /\ (~ reached ->
      login_get env req w' = UnknownStrategy ("replitauth:" +:+ h)
      /\ callback_get env req w' = UnknownStrategy ("replitauth:" +:+ h)).
Proof.
  intros Hon Hdisc Hempty w' h reached. subst w' reached.
  unfold login_get, callback_get, passport_authenticate.
  rewrite Hon, (setupAuth_strategies env w cfg Hon Hdisc). fold h. split.
  - intros Hin. apply (registrable_spec env _ h) in Hin.
    destruct (registered_domain env cfg _ (strategies w) h Hin)
      as (s & Hs & Hreg).
    destruct (new_Strategy_inv env cfg h s Hs) as (Hname & _ & Hurl).
    fold (strategy_name h). rewrite Hreg. exists s. eexists _, _.
    split; [reflexivity |]. split; [reflexivity |]. split; [exact Hurl |].
    split; [| exact Hname].
    intros Hplain. rewrite (new_URL_plain env h Hplain) in Hurl.
    by injection Hurl as <-.
  - intros Hout. fold (strategy_name h).
    rewrite registered_other, Hempty, lookup_empty; [done |].
    intros d Hd Heq. apply strategy_name_inj in Heq. subst d.
    by apply Hout, (registrable_spec env _ h).
Qed.

Lemma federated_routes_select_witness :
  let w' := (setupAuth Scenario.hosted Scenario.startup).2 in
  let p' := (setupAuth Cases.padded Scenario.startup).2 in
  (exists s o1,
      login_get Scenario.hosted (Cases.visitor "b.example") w' = Authenticate s o1
      /\ callbackURL s = "https://b.example/api/callback")
  /\ login_get Scenario.hosted (Cases.visitor "B.example") w'
     = UnknownStrategy "replitauth:B.example"
  /\ "c.example" ∈ split "," (replit_domains Cases.padded)
  /\ login_get Cases.padded (Cases.visitor "c.example") p'
     = UnknownStrategy "replitauth:c.example".
Proof.
  intros w' p'.
  destruct (federated_routes_select Scenario.hosted Scenario.startup
              {| cfg_issuer := "https://replit.com/oidc";
                 cfg_client_id := "repl-1"; cfg_metadata := "metadata" |}
              (Cases.visitor "b.example") eq_refl eq_refl eq_refl)
    as [Hyes _].
  destruct (federated_routes_select Scenario.hosted Scenario.startup
              {| cfg_issuer := "https://replit.com/oidc";
                 cfg_client_id := "repl-1"; cfg_metadata := "metadata" |}
              (Cases.visitor "B.example") eq_refl eq_refl eq_refl)
    as [_ Hno].
  destruct (federated_routes_select Cases.padded Scenario.startup
              {| cfg_issuer := "https://replit.com/oidc";
                 cfg_client_id := "repl-1"; cfg_metadata := "metadata" |}
              (Cases.visitor "c.example") eq_refl eq_refl eq_refl)
    as [_ Hpad].
  split; [| split; [| split]].
  - destruct Hyes as (s & o1 & o2 & Hl & _ & _ & Hcb & _).
    + exists ["a.example"], []. split; [reflexivity |].
      repeat constructor; by eexists.
    + exists s, o1. split; [exact Hl |]. exact (Hcb eq_refl).
  - apply Hno. intros (pre & post & Hsplit & _).
    assert (Hin : "B.example" ∈ ["a.example"; "b.example"]).
    { change (split "," (replit_domains Scenario.hosted))
        with ["a.example"; "b.example"] in Hsplit.
      simpl in Hsplit. rewrite Hsplit. apply elem_of_app. right. left. }
    rewrite !elem_of_cons in Hin.
    destruct Hin as [Hin | [Hin | Hin]]; [discriminate | discriminate |].
    by apply elem_of_nil in Hin.
  - apply list_elem_of_further, list_elem_of_further, list_elem_of_here.
  - apply Hpad. intros Hreach.
    apply (registrable_spec Cases.padded _ "c.example") in Hreach.
    change (registrable Cases.padded (split "," (replit_domains Cases.padded)))
      with ["a.example"] in Hreach.
    apply elem_of_cons in Hreach as [Hreach | Hreach]; [discriminate |].
    by apply elem_of_nil in Hreach.
Defined.

(** X16. After a setup from an empty registry that did not register
    (the deployment is demo-only, or discovery failed), no hostname
    reaches a strategy: on a demo-only deployment the login and
    callback routes are not mounted; when discovery failed they are
    mounted, but passport knows no strategy for any hostname. *)
Theorem federated_routes_without_setup env w req :
  strategies w = ∅ ->
  let w' := (setupAuth env w).2 in
  (truthy (isReplitEnvironment env) = false ->
   login_get env req w' = NotMounted /\ callback_get env req w' = NotMounted)
  /\ (truthy (isReplitEnvironment env) = true ->
      forall e,
        discovery env (trace w)
          (default "https://replit.com/oidc" (ISSUER_URL env))
          (default EmptyString (REPL_ID env)) = inl e ->
        login_get env req w'
        = UnknownStrategy ("replitauth:" +:+ req_hostname req)
        /\ callback_get env req w'
           = UnknownStrategy ("replitauth:" +:+ req_hostname req)).
Proof.
  intros Hempty w'. subst w'. rewrite (setupAuth_run env w).
  unfold login_get, callback_get, passport_authenticate. split.
  - intros Hoff. by rewrite Hoff.
  - intros Hon e Hdisc. rewrite Hon, Hdisc. simpl.
    by rewrite Hempty, lookup_empty.
Qed.

Lemma federated_routes_without_setup_witness :
  login_get Scenario.demo_only (Cases.visitor "a.example")
    (setupAuth Scenario.demo_only Scenario.startup).2 = NotMounted
  /\ login_get Scenario.undiscoverable (Cases.visitor "a.example")
       (setupAuth Scenario.undiscoverable Scenario.startup).2
     = UnknownStrategy "replitauth:a.example".
Proof.
  split.
  - apply (federated_routes_without_setup Scenario.demo_only Scenario.startup
             (Cases.visitor "a.example") eq_refl). reflexivity.
  - eapply (federated_routes_without_setup Scenario.undiscoverable
              Scenario.startup (Cases.visitor "a.example") eq_refl);
      reflexivity.
Defined.

(** *** X17: the default hostnames *)

(** X17. When [REPLIT_DOMAINS] is unset or empty, a successful setup
    from an empty registry registers exactly the strategies of the
    three default hostnames [replit.app], [replit.dev] and
    [replit.com]. *)
Theorem default_domains_registered env w cfg :
  REPLIT_DOMAINS env = None \/ REPLIT_DOMAINS env = Some EmptyString ->
  truthy (isReplitEnvironment env) = true ->
  discovery env (trace w) (default "https://replit.com/oidc" (ISSUER_URL env))
    (default EmptyString (REPL_ID env)) = inr cfg ->
  strategies w = ∅ ->
  forall n,
    is_Some (strategies (setupAuth env w).2 !! n)
    <-> n ∈ ["replitauth:replit.app"; "replitauth:replit.dev";
             "replitauth:replit.com"].
Proof.
  intros Hdom Hon Hdisc Hempty n.
  rewrite (setupAuth_strategies env w cfg Hon Hdisc).
  assert (Hds : split "," (replit_domains env)
                = ["replit.app"; "replit.dev"; "replit.com"])
    by (unfold replit_domains; by destruct Hdom as [-> | ->]).
  assert (Hreach : registrable env ["replit.app"; "replit.dev"; "replit.com"]
                   = ["replit.app"; "replit.dev"; "replit.com"]).
  { apply registrable_all. repeat constructor; eexists; by apply new_URL_plain. }
  rewrite Hds. split.
  - intros [s Hs]. apply registered_only in Hs as [(d & Hd & -> & _) | Hs].
    + rewrite Hreach in Hd.
      apply elem_of_cons in Hd as [-> | Hd]; [left |].
      apply elem_of_cons in Hd as [-> | Hd]; [right; left |].
      apply elem_of_cons in Hd as [-> | Hd]; [right; right; left |].
      by apply elem_of_nil in Hd.
    + by rewrite Hempty, lookup_empty in Hs.
  - intros Hn.
    assert (Hreg : forall d,
               d ∈ ["replit.app"; "replit.dev"; "replit.com"] ->
               is_Some (registered env cfg
                          ["replit.app"; "replit.dev"; "replit.com"]
                          (strategies w) !! strategy_name d)).
    { intros d Hd. rewrite <- Hreach in Hd.
      destruct (registered_domain env cfg _ (strategies w) d Hd)
        as (s & _ & Hs).
      by exists s. }
    apply elem_of_cons in Hn as [-> | Hn];
      [apply (Hreg "replit.app"); left |].
    apply elem_of_cons in Hn as [-> | Hn];
      [apply (Hreg "replit.dev"); right; left |].
    apply elem_of_cons in Hn as [-> | Hn];
      [apply (Hreg "replit.com"); right; right; left |].
    by apply elem_of_nil in Hn.
Qed.

Lemma default_domains_registered_witness :
  is_Some (strategies (setupAuth (Cases.with_domains None) Scenario.startup).2
           !! "replitauth:replit.dev")
  /\ ~ is_Some (strategies
                  (setupAuth (Cases.with_domains None) Scenario.startup).2
                !! "replitauth:a.example").
Proof.
  pose proof (default_domains_registered (Cases.with_domains None)
                Scenario.startup
                {| cfg_issuer := "https://replit.com/oidc";
                   cfg_client_id := "repl-1"; cfg_metadata := "metadata" |}
                (or_introl eq_refl) eq_refl eq_refl eq_refl) as H.
  split.
  - apply H. right. left.
  - rewrite H, !not_elem_of_cons.
    repeat split; try discriminate. apply not_elem_of_nil.
Defined.

(** *** X18: a hostname that is no hostname ends the registration *)

Lemma registered_app_failed env cfg pre d post e reg :
  Forall (fun p => exists url, new_URL env (callback_url p) = inr url) pre ->
  new_URL env (callback_url d) = inl e ->
  registered env cfg (pre ++ d :: post) reg = registered env cfg pre reg
  /\ loop_failure env cfg (pre ++ d :: post) = Some e
  /\ registrable env (pre ++ d :: post) = pre.
Proof.
  intros Hpre Hd. revert reg.
  induction Hpre as [|p pre [u Hu] _ IH]; intros reg; simpl.
  - by rewrite (new_Strategy_failed env cfg d e Hd), Hd.
  - destruct (new_Strategy_parsed env cfg p u Hu) as [s Hs]. rewrite Hs, Hu.
    destruct (IH (<[name s := s]> reg)) as (-> & -> & ->). done.
Qed.

(** X18. A piece of the allowed-hostname list whose callback URL
    [https://{piece}/api/callback] does not parse ends the
    registration.  When the federated path is enabled, discovery
    succeeded and the callback URLs of the pieces before that one
    parse, [setupAuth] still returns normally and leaves heap and
    session store alone; it logs the constructor's error after the
    discovery; it has registered the strategy of every piece before the
    failing one, with the parsed callback URL; and it has registered no
    other: every name that is not the one of an earlier piece (so the
    name of the failing piece and of each piece after it, unless an
    earlier piece is the same) maps to what it did before. *)
Theorem setupAuth_stops_at_unparsable env w cfg pre d post e :
  truthy (isReplitEnvironment env) = true ->
  discovery env (trace w) (default "https://replit.com/oidc" (ISSUER_URL env))
    (default EmptyString (REPL_ID env)) = inr cfg ->
  split "," (replit_domains env) = pre ++ d :: post ->
  Forall (fun p => exists url,
              new_URL env ("https://" +:+ p +:+ "/api/callback") = inr url) pre ->
  new_URL env ("https://" +:+ d +:+ "/api/callback") = inl e ->
  let run := setupAuth env w in
  run.1 = Ok tt
  /\ trace run.2
     = EvConsoleLog "OpenID setup failed, using demo login only:" (Some e)
       :: EvDiscovery (default "https://replit.com/oidc" (ISSUER_URL env))
            (default EmptyString (REPL_ID env)) (inr cfg)
       :: trace w
  /\ (forall p, p ∈ pre ->
        exists s, strategies run.2 !! ("replitauth:" +:+ p) = Some s
                  /\ name s = "replitauth:" +:+ p
                  /\ new_URL env ("https://" +:+ p +:+ "/api/callback")
                     = inr (callbackURL s))
  /\ (forall n, (forall p, p ∈ pre -> n ≠ "replitauth:" +:+ p) ->
        strategies run.2 !! n = strategies w !! n)
  /\ heap run.2 = heap w /\ store run.2 = store w.
Proof.
  intros Hon Hdisc Hsplit Hpre Hd run. subst run.
  destruct (registered_app_failed env cfg pre d post e (strategies w) Hpre Hd)
    as (Hreg & Hfail & Hreach).
  rewrite setupAuth_run, Hon, Hdisc, Hsplit. cbv zeta. rewrite Hfail, Hreg.
  simpl. split; [done |]. split; [done |]. split; [| split; [| done]].
  - intros p Hp.
    destruct (registered_domain env cfg pre (strategies w) p) as (s & Hs & Hl).
    { by rewrite (registrable_all env pre Hpre). }
    destruct (new_Strategy_inv env cfg p s Hs) as (Hname & _ & Hurl).
    by exists s.
  - intros n Hn. apply registered_other.
    intros p Hp Heq. rewrite (registrable_all env pre Hpre) in Hp.
    by apply (Hn p Hp).
Qed.

Lemma setupAuth_stops_at_unparsable_witness :
  let run := setupAuth Cases.padded Scenario.startup in
  split "," (replit_domains Cases.padded)
  = ["a.example"; " b.example"; "c.example"]
  /\ run.1 = Ok tt
  /\ is_Some (strategies run.2 !! "replitauth:a.example")
  /\ strategies run.2 !! "replitauth: b.example" = None
  /\ strategies run.2 !! "replitauth:b.example" = None
  /\ strategies run.2 !! "replitauth:c.example" = None.
Proof.
  intros run.
  destruct (setupAuth_stops_at_unparsable Cases.padded Scenario.startup
              {| cfg_issuer := "https://replit.com/oidc";
                 cfg_client_id := "repl-1"; cfg_metadata := "metadata" |}
              ["a.example"] " b.example" ["c.example"]
              (TypeError "Invalid URL") eq_refl eq_refl eq_refl)
    as (Hok & _ & Hpre & Hrest & _).
  { repeat constructor; by eexists. }
  { reflexivity. }
  assert (Hnone : forall n, n ≠ "replitauth:a.example" ->
            strategies run.2 !! n = None).
  { intros n Hn. rewrite Hrest; [reflexivity |].
    intros p Hp. apply elem_of_cons in Hp as [-> | Hp]; [exact Hn |].
    by apply elem_of_nil in Hp. }
  split; [reflexivity |]. split; [exact Hok |]. split.
  - destruct (Hpre "a.example") as (s & Hs & _); [left |]. by exists s.
  - split; [| split]; by apply Hnone.
Defined.

(** *** The pieces of a list *)

Lemma split_cons sep s : exists p ps, split sep s = p :: ps.
Proof.
  induction s as [|c r IH]; simpl; [by eexists _, _ |].
  destruct (Ascii.eqb c sep); [by eexists _, _ |].
  destruct IH as (p & ps & ->). by eexists _, _.
Qed.

(** Splitting at the separator loses nothing and trims nothing: there
    is always at least one piece, no piece contains the separator, and
    the pieces joined by it spell the string again. *)
Lemma split_then_join sep s :
  split sep s ≠ []
  /\ join sep (split sep s) = s
  /\ Forall (fun p => contains sep p = false) (split sep s).
Proof.
  induction s as [|c r (Hne & Hjoin & Hall)].
  - repeat split; [done | by repeat constructor].
  - destruct (split_cons sep r) as (p & ps & Hs).
    change (split sep (String c r))
      with (if Ascii.eqb c sep then EmptyString :: split sep r
            else match split sep r with
                 | p :: ps => String c p :: ps
                 | [] => [String c EmptyString]
                 end).
    rewrite Hs in *. destruct (Ascii.eqb c sep) eqn:Hc.
    + apply Ascii.eqb_eq in Hc as ->. split; [done |]. split.
      * change (join sep (EmptyString :: p :: ps))
          with (String sep (join sep (p :: ps))). by rewrite Hjoin.
      * by constructor.
    + split; [done |]. split.
      * destruct ps as [|q qs].
        -- simpl in *. by rewrite Hjoin.
        -- change (join sep (String c p :: q :: qs))
             with (String c (join sep (p :: q :: qs))). by rewrite Hjoin.
      * inversion Hall as [|? ? Hp Hps]; subst. constructor; [| done].
        simpl. by rewrite Hc.
Qed.

(** *** X19: what a logout leaves alone *)

(** X19. [POST /api/logout] never touches the heap or the strategy
    registry, and the only store entry it can remove is the one of the
    requesting session: every other session stays.  On a request
    without a session object it raises a TypeError before the store is
    asked, and the world is unchanged. *)
Theorem logout_frame env req w :
  let run := logout_post env req w in
  heap run.2 = heap w
  /\ strategies run.2 = strategies w
  /\ (forall sid, sid ≠ req_sessionID req -> store run.2 !! sid = store w !! sid)
  /\ ((forall ls, req_session req ≠ VRef ls) ->
      run = (Throw (TypeError "destroy"), w)).
Proof.
  cbv zeta. destruct (req_session req) as [| | | | |ls] eqn:Hs;
    try (unfold logout_post, session_destroy; rewrite Hs; by repeat split).
  rewrite (logout_post_run env req w ls Hs). cbv zeta.
  destruct (sessionStore_destroy env (trace w) (req_sessionID req)); simpl.
  - repeat split; try done. intros Hno. by destruct (Hno ls).
  - repeat split; try done.
    + intros sid Hne. by rewrite lookup_delete_ne.
    + intros Hno. by destruct (Hno ls).
Qed.

(** *** X20: after a logout, protected routes are closed *)

Lemma serve_protected_unknown env sid body hostname w :
  store w !! sid = None ->
  exists w',
    serve_protected env sid body hostname w
    = (Ok (Reply 401 (BMessage "Unauthorized")), w').
Proof.
  intros Hnone. eexists. unfold serve_protected.
  rewrite (bind_ok _ _ _ _ _ (incoming_new env sid body hostname w Hnone)).
  set (w1 := set_heap _ w). set (r := Build_Request _ _ _ _ _ _).
  assert (Hd : truthy (demo_payload w1 r) = false).
  { unfold demo_payload, r, w1. simpl. by rewrite lookup_insert_eq. }
  destruct (truthy (isReplitEnvironment env)) eqn:Hon.
  - apply check_path_sound. by apply path_anonymous.
  - by apply check_disabled.
Qed.

(** X20. Once [POST /api/logout] has answered 200, a request for a
    protected route that comes with the same session cookie is answered
    401 by the authentication check, on every deployment: the demo
    payload and the federated principal of the session are both gone. *)
Theorem logout_closes_protected_routes env env' req w body hostname :
  (logout_post env req w).1
  = Ok (Reply 200 (BMessage "Успешный выход из системы")) ->
  exists w',
    serve_protected env' (req_sessionID req) body hostname (logout_post env req w).2
    = (Ok (Reply 401 (BMessage "Unauthorized")), w').
Proof.
  intros H200. apply serve_protected_unknown.
  destruct (req_session req) as [| | | | |ls] eqn:Hs;
    try (unfold logout_post, session_destroy in H200; rewrite Hs in H200;
         discriminate).
  rewrite (logout_post_run env req w ls Hs) in *. cbv zeta in *.
  destruct (sessionStore_destroy env (trace w) (req_sessionID req));
    [discriminate |].
  simpl. apply lookup_delete_eq.
Qed.

Lemma logout_closes_protected_routes_witness :
  let w := Scenario.world_of
             (Scenario.principal_obj (VNum 1700003600) (VStr "rt1"))
             (VRef 5%positive) in
  (serve_protected Scenario.hosted "s1" (VRef 6%positive) "a.example" w).1
  = Ok (Next (set_req_user Scenario.request (VRef 5%positive)))
  /\ exists w',
      serve_protected Scenario.hosted "s1" (VRef 6%positive) "a.example"
        (logout_post Scenario.hosted Scenario.request w).2
      = (Ok (Reply 401 (BMessage "Unauthorized")), w').
Proof.
  intros w. split; [| exact (logout_closes_protected_routes Scenario.hosted
                               Scenario.hosted Scenario.request w (VRef 6%positive)
                               "a.example" eq_refl)].
  by vm_compute.
Defined.

(** *** X21: the session options *)

(** X21. Whatever the environment, the secret [getSession] signs the
    session cookie with is not empty: it is [SESSION_SECRET] when that
    is set and not empty, and the built-in key otherwise.  The cookie
    and the store entry are given the same lifetime, one week in
    milliseconds, and the session table is never created. *)
Theorem getSession_options session_secret database_url :
  let o := getSession session_secret database_url in
  secret o ≠ EmptyString
  /\ (forall s, session_secret = Some s -> s ≠ EmptyString -> secret o = s)
  /\ (session_secret = None \/ session_secret = Some EmptyString ->
      secret o = "package-management-secret-key")
  /\ maxAge (cookie o) = ttl (sessionStore o)
  /\ maxAge (cookie o) = 604800000
  /\ createTableIfMissing (sessionStore o) = false
  /\ conString (sessionStore o) = database_url.
Proof.
  cbv zeta. unfold getSession, env_or. simpl.
  split; [| split; [| split; [| done]]].
  - destruct session_secret as [s|]; [| discriminate].
    destruct s as [|c r]; simpl; discriminate.
  - intros s -> Hs. by destruct s.
  - by intros [-> | ->].
Qed.
